(** * GoEconGo: a shallow embedding of main.go

    The Go program simulates a commodity economy: trader agents produce goods,
    post asks and bids, a clearinghouse matches them per commodity, and the
    agents adapt their price beliefs.

    Modelling choices, all following main.go:
    - a [*commodity] pointer is identified by the commodity's name
      ([cptr := string]); the commodity registry, which holds the
      [averagePrice] field behind each pointer, is a [gmap cptr Q];
    - [float64] values (prices, funds, beliefs) are exact rationals [Q]:
      rounding is not modelled;
    - Go [int] values are [Z] (the values involved are small, no wrap-around);
    - a Go [map] is a [gmap]; reading a missing key yields the zero value, as
      Go does ([lookupZ], [belief]);
    - Go's run-time panics (index out of range) are the [Panic] case of a
      small error monad [result];
    - [rand.Float64()] is an explicit stream [rng : nat -> Q] with a counter;
    - the unbounded [for] loops of the belief correction are run with fuel;
      running out of fuel is reported as [None] (the loop did not finish). *)

From Stdlib Require Import ZArith QArith Qabs Qround Lqa.
From stdpp Require Import base gmap strings list fin_maps sorting.

Open Scope Q_scope.

(* ------------------------------------------------------------------ *)
(** ** Error monad for Go panics *)

Inductive result (A : Type) : Type :=
| Ok (a : A)
| Panic (why : string).
Arguments Ok {A} a.
Arguments Panic {A} why.

#[global] Instance result_ret : MRet result := fun A a => Ok a.
#[global] Instance result_bind : MBind result :=
  fun A B f m => match m with Ok a => f a | Panic s => Panic s end.

(** [s[i]] on a Go slice: panics out of range. *)
Definition index {A} (l : list A) (i : nat) : result A :=
  match l !! i with
  | Some x => Ok x
  | None => Panic "index out of range"
  end.

(* ------------------------------------------------------------------ *)
(** ** Data model *)

(** A [*commodity]; the pointed-to [averagePrice] lives in the registry. *)
Definition cptr := string.

(** [commoditySet {item; quantity}] *)
Record commoditySet := mkCommoditySet {
  item : cptr;
  quantity : Z
}.

(** [productionMethod {inputs; catalysts; outputs; consumption}] *)
Record productionMethod := mkProductionMethod {
  inputs : list commoditySet;
  catalysts : list commoditySet;
  outputs : list commoditySet;
  consumption : list Q
}.

(** [productionSet {methods; penalty}] *)
Record productionSet := mkProductionSet {
  methods : list productionMethod;
  penalty : Q
}.

(** [priceRange {low; high}] *)
Record priceRange := mkPriceRange {
  low : Q;
  high : Q
}.

(** [traderAgent]; [id] is not used by the code modelled here. *)
Record traderAgent := mkTraderAgent {
  role : string;
  job : productionSet;
  inventory : gmap cptr Z;
  priceBelief : gmap cptr priceRange;
  funds : Q;
  riskAversion : Z
}.

(** The commodity registry: the [averagePrice] field behind each pointer. *)
Abbreviation registry := (gmap cptr Q).

(** [item.averagePrice] *)
Definition averagePrice (market : registry) (c : cptr) : Q :=
  default 0 (market !! c).

(** [agent.inventory[c]]: a missing key reads as 0. *)
Definition lookupZ (m : gmap cptr Z) (c : cptr) : Z := default 0%Z (m !! c).

(** [agent.priceBelief[c]]: a missing key reads as the zero [priceRange]. *)
Definition belief (agent : traderAgent) (c : cptr) : priceRange :=
  default (mkPriceRange 0 0) (priceBelief agent !! c).

Definition set_funds (a : traderAgent) (f : Q) : traderAgent :=
  mkTraderAgent (role a) (job a) (inventory a) (priceBelief a) f (riskAversion a).
Definition set_inventory (a : traderAgent) (i : gmap cptr Z) : traderAgent :=
  mkTraderAgent (role a) (job a) i (priceBelief a) (funds a) (riskAversion a).
Definition set_priceBelief (a : traderAgent) (p : gmap cptr priceRange) : traderAgent :=
  mkTraderAgent (role a) (job a) (inventory a) p (funds a) (riskAversion a).
Definition set_job (a : traderAgent) (j : productionSet) : traderAgent :=
  mkTraderAgent (role a) j (inventory a) (priceBelief a) (funds a) (riskAversion a).

(* ------------------------------------------------------------------ *)
(** ** Method valuation: [getMarketValue], [getAverageProductionValue] *)

(** The three loops shared by both valuations, for a per-commodity price
    [price]: add the outputs, subtract the inputs, subtract the catalysts
    weighted by [method.consumption[index]] (which panics out of range). *)
Fixpoint catalystCost (price : cptr -> Q) (cons : list Q) (index_ : nat)
    (cs : list commoditySet) (acc : Q) : result Q :=
  match cs with
  | [] => Ok acc
  | c :: cs' =>
      p ← index cons index_;
      catalystCost price cons (S index_) cs'
        (acc - inject_Z (quantity c) * p * price (item c))
  end.

Definition methodValue (price : cptr -> Q) (method : productionMethod) : result Q :=
  let up := fold_left (fun v o => v + inject_Z (quantity o) * price (item o))
              (outputs method) 0 in
  let net := fold_left (fun v i => v - inject_Z (quantity i) * price (item i))
               (inputs method) up in
  catalystCost price (consumption method) 0 (catalysts method) net.

(** [getMarketValue(method)]: valued at the public [averagePrice]s. *)
Definition getMarketValue (market : registry) (method : productionMethod) : result Q :=
  methodValue (averagePrice market) method.

(** The midpoint [(high+low)/2] of the agent's belief. *)
Definition beliefMid (agent : traderAgent) (c : cptr) : Q :=
  (high (belief agent c) + low (belief agent c)) / 2.

(** [getAverageProductionValue(agent, productionNumber)]: the bound check
    returns -1; a negative index falls through to [methods[productionNumber]],
    which panics. *)
Definition getAverageProductionValue (agent : traderAgent) (productionNumber : Z)
  : result Q :=
  if (Z.of_nat (length (methods (job agent))) <=? productionNumber)%Z
  then Ok (-1)
  else if (productionNumber <? 0)%Z then Panic "index out of range"
  else method ← index (methods (job agent)) (Z.to_nat productionNumber);
       methodValue (beliefMid agent) method.

(* ------------------------------------------------------------------ *)
(** ** [sort.Sort] on short slices *)

(** [a < b] on float64, as a boolean. *)
Definition Qltb (x y : Q) : bool := negb (Qle_bool y x).

(** Monadic left fold. *)
Fixpoint foldlM {A B} (f : A -> B -> result A) (acc : A) (l : list B) : result A :=
  match l with
  | [] => Ok acc
  | x :: l' => acc' ← f acc x; foldlM f acc' l'
  end.

(** The inner loop of Go's [insertionSort]:
    [for j := i; j > a && data.Less(j, j-1); j-- { data.Swap(j, j-1) }]
    with [a = 0]. [Less] may panic (it evaluates a method's value). *)
Fixpoint sinkDown {A} (less : A -> A -> result bool) (j : nat) (l : list A)
  : result (list A) :=
  match j with
  | 0%nat => Ok l
  | S j' =>
      x ← index l j; y ← index l j';
      less x y ≫= λ b : bool,
        if b then sinkDown less j' (<[j' := x]> (<[j := y]> l)) else Ok l
  end.

(** [sort.Sort(data)] for [data.Len() <= 6]: both the quicksort of older Go
    releases and pdqsort run exactly Go's [insertionSort(data, 0, n)] on such
    short slices (every production set of main.go has two methods):
    [for i := a + 1; i < b; i++ { ...sinkDown... }]. *)
Definition insertionSort {A} (less : A -> A -> result bool) (l : list A)
  : result (list A) :=
  foldlM (fun l i => sinkDown less i l) l (seq 1 (length l - 1)).

(** [ByMarketValue.Less(i, j)]:
    [getMarketValue(a[i]) < getMarketValue(a[j])]. *)
Definition byMarketValueLess (market : registry) (x y : productionMethod)
  : result bool :=
  vx ← getMarketValue market x; vy ← getMarketValue market y; Ok (Qltb vx vy).

(* ------------------------------------------------------------------ *)
(** ** [performProduction] *)

(** The [accepted] test of one method: every input and every catalyst is held
    in at least the required quantity. *)
Definition executable (inv : gmap cptr Z) (method : productionMethod) : bool :=
  forallb (fun i => (quantity i <=? lookupZ inv (item i))%Z) (inputs method) &&
  forallb (fun c => (quantity c <=? lookupZ inv (item c))%Z) (catalysts method).

(** [executedIndex]: the first method, in slice order, that is executable;
    [None] stands for [-1]. *)
Fixpoint firstExecutable (inv : gmap cptr Z) (ms : list productionMethod) : option nat :=
  match ms with
  | [] => None
  | m :: ms' =>
      if executable inv m then Some 0%nat
      else option_map S (firstExecutable inv ms')
  end.

(** [agent.inventory[c] = agent.inventory[c] + d] *)
Definition addInv (inv : gmap cptr Z) (c : cptr) (d : Z) : gmap cptr Z :=
  <[c := (lookupZ inv c + d)%Z]> inv.

(** [for i := 0; i < catalyst.quantity; i++ { if consumption[ci] > rand.Float64()
    { inventory[catalyst.item]-- } }], drawing from [rng] at counter [n]. *)
Fixpoint consumeCatalyst (rng : nat -> Q) (cons : list Q) (ci : nat) (c : cptr)
    (k : nat) (inv : gmap cptr Z) (n : nat) : result (gmap cptr Z * nat) :=
  match k with
  | 0%nat => Ok (inv, n)
  | S k' =>
      p ← index cons ci;
      let inv' := if Qltb (rng n) p then addInv inv c (-1) else inv in
      consumeCatalyst rng cons ci c k' inv' (S n)
  end.

Fixpoint consumeCatalysts (rng : nat -> Q) (cons : list Q) (ci : nat)
    (cs : list commoditySet) (inv : gmap cptr Z) (n : nat)
  : result (gmap cptr Z * nat) :=
  match cs with
  | [] => Ok (inv, n)
  | c :: cs' =>
      '(inv', n') ← consumeCatalyst rng cons ci (item c) (Z.to_nat (quantity c)) inv n;
      consumeCatalysts rng cons (S ci) cs' inv' n'
  end.

(** The success branch: remove inputs, maybe consume catalysts, add outputs. *)
Definition runMethod (rng : nat -> Q) (m : productionMethod) (inv : gmap cptr Z)
    (n : nat) : result (gmap cptr Z * nat) :=
  let inv1 := fold_left (fun inv i => addInv inv (item i) (- quantity i)%Z)
                (inputs m) inv in
  '(inv2, n') ← consumeCatalysts rng (consumption m) 0 (catalysts m) inv1 n;
  Ok (fold_left (fun inv o => addInv inv (item o) (quantity o)) (outputs m) inv2, n').

(** [performProduction(&agent)]. [sort.Sort(ByMarketValue(agent.job.methods))]
    reorders the job's method slice in place (ascending market value), then the
    first executable method in that order runs; with none, the idle penalty is
    deducted. Returns the agent and the advanced [rng] counter. *)
Definition performProduction (rng : nat -> Q) (market : registry)
    (agent : traderAgent) (n : nat) : result (traderAgent * nat) :=
  sorted ← insertionSort (byMarketValueLess market) (methods (job agent));
  let agent1 := set_job agent (mkProductionSet sorted (penalty (job agent))) in
  match firstExecutable (inventory agent1) (methods (job agent1)) with
  | None => Ok (set_funds agent1 (funds agent1 - penalty (job agent1)), n)
  | Some executedIndex =>
      m ← index (methods (job agent1)) executedIndex;
      '(inv', n') ← runMethod rng m (inventory agent1) n;
      Ok (set_inventory agent1 inv', n')
  end.

(* ------------------------------------------------------------------ *)
(** ** Offers *)

(** [ask {id; item; quantity; sellFor}] *)
Record ask := mkAsk {
  ask_id : Z;
  ask_item : cptr;
  ask_quantity : Z;
  sellFor : Q
}.

(** [asks {offeredAsk; numberOffered; numberAccepted}] *)
Record asks := mkAsks {
  offeredAsk : ask;
  askNumberOffered : Z;
  askNumberAccepted : Z
}.

(** [bid {id; item; quantity; buyFor}] *)
Record bid := mkBid {
  bid_id : Z;
  bid_item : cptr;
  bid_quantity : Z;
  buyFor : Q
}.

(** [bids {offeredBid; numberOffered; numberAccepted}] *)
Record bids := mkBids {
  offeredBid : bid;
  bidNumberOffered : Z;
  bidNumberAccepted : Z
}.

(* ------------------------------------------------------------------ *)
(** ** [agentUpdate] *)

(** [bigPercent := 0.2], [littlePercent := 0.01] *)
Definition bigPercent : Q := 2 # 10.
Definition littlePercent : Q := 1 # 100.

(** One step of the correction loop:
    [agentLow = agentLow - math.Abs(agentLow-itemAvg)*pct], in exact rational
    arithmetic. float64 rounding is not modelled. A step below half an ulp of
    [agentLow] vanishes in Go, so the Go loop can stall where this model moves
    on; only properties that survive rounding are stated about it. *)
Definition lowerStep (pct itemAvg agentLow : Q) : Q :=
  agentLow - Qabs (agentLow - itemAvg) * pct.

(** [for agentLow >= agentHigh { agentLow = lowerStep(agentLow) }], run with
    [fuel] iterations at most; [None] when it has not finished. *)
Fixpoint correctLow (fuel : nat) (pct itemAvg agentHigh agentLow : Q) : option Q :=
  if Qle_bool agentHigh agentLow then
    match fuel with
    | 0%nat => None
    | S f => correctLow f pct itemAvg agentHigh (lowerStep pct itemAvg agentLow)
    end
  else Some agentLow.

(** Raise both bounds by [|bound - itemAvg| * pct], then run the correction.
    Returns [(agentHigh, agentLow)]. *)
Definition raiseBelief (fuel : nat) (pct itemAvg agentHigh agentLow : Q) : option (Q * Q) :=
  let agentHigh' := agentHigh + Qabs (agentHigh - itemAvg) * pct in
  let agentLow' := agentLow + Qabs (agentLow - itemAvg) * pct in
  l ← correctLow fuel pct itemAvg agentHigh' agentLow'; Some (agentHigh', l).

(** Lower both bounds by [|bound - itemAvg| * pct], then run the correction. *)
Definition lowerBelief (fuel : nat) (pct itemAvg agentHigh agentLow : Q) : option (Q * Q) :=
  let agentHigh' := agentHigh - Qabs (agentHigh - itemAvg) * pct in
  let agentLow' := agentLow - Qabs (agentLow - itemAvg) * pct in
  l ← correctLow fuel pct itemAvg agentHigh' agentLow'; Some (agentHigh', l).

(** [if agentLow < 0 { agentLow = 0.5 }] *)
Definition floorLow (agentLow : Q) : Q := if Qltb agentLow 0 then 1 # 2 else agentLow.

(** The body of the first loop of [agentUpdate], for one [askSet]. *)
Definition askEntryUpdate (fuel : nat) (market : registry) (agent : traderAgent)
    (askSet : asks) : option traderAgent :=
  let it := ask_item (offeredAsk askSet) in
  let agentHigh := high (belief agent it) in
  let agentLow := low (belief agent it) in
  let agentAvg := (agentHigh + agentLow) / 2 in
  let itemAvg := averagePrice market it in
  let '(agent1, adjusted) :=
    if (0 <? askNumberAccepted askSet)%Z then
      let sold := (ask_quantity (offeredAsk askSet) * askNumberAccepted askSet)%Z in
      (set_inventory
         (set_funds agent (funds agent + inject_Z (ask_quantity (offeredAsk askSet))
                                         * inject_Z (askNumberAccepted askSet)
                                         * sellFor (offeredAsk askSet)))
         (addInv (inventory agent) it (- sold)),
       if Qle_bool agentAvg itemAvg
       then raiseBelief fuel bigPercent itemAvg agentHigh agentLow
       else raiseBelief fuel littlePercent itemAvg agentHigh agentLow)
    else
      (agent,
       if Qle_bool itemAvg agentAvg
       then lowerBelief fuel bigPercent itemAvg agentHigh agentLow
       else lowerBelief fuel littlePercent itemAvg agentHigh agentLow) in
  '(h, l) ← adjusted;
  Some (set_priceBelief agent1
          (<[it := mkPriceRange (floorLow l) h]> (priceBelief agent1))).

(** The body of the second loop of [agentUpdate], for one [bidSet]. *)
Definition bidEntryUpdate (fuel : nat) (market : registry) (agent : traderAgent)
    (bidSet : bids) : option traderAgent :=
  let it := bid_item (offeredBid bidSet) in
  let agentHigh := high (belief agent it) in
  let agentLow := low (belief agent it) in
  let agentAvg := (agentHigh + agentLow) / 2 in
  let itemAvg := averagePrice market it in
  let '(agent1, adjusted) :=
    if (0 <? bidNumberAccepted bidSet)%Z then
      let bought := (bid_quantity (offeredBid bidSet) * bidNumberAccepted bidSet)%Z in
      (set_inventory
         (set_funds agent (funds agent - inject_Z (bid_quantity (offeredBid bidSet))
                                         * inject_Z (bidNumberAccepted bidSet)
                                         * buyFor (offeredBid bidSet)))
         (addInv (inventory agent) it bought),
       if Qle_bool itemAvg agentAvg
       then lowerBelief fuel bigPercent itemAvg agentHigh agentLow
       else lowerBelief fuel littlePercent itemAvg agentHigh agentLow)
    else
      (agent,
       if Qle_bool agentAvg itemAvg
       then raiseBelief fuel bigPercent itemAvg agentHigh agentLow
       else raiseBelief fuel littlePercent itemAvg agentHigh agentLow) in
  '(h, l) ← adjusted;
  Some (set_priceBelief agent1
          (<[it := mkPriceRange (floorLow l) h]> (priceBelief agent1))).

(** Option-valued left fold. *)
Fixpoint foldlOpt {A B} (f : A -> B -> option A) (acc : A) (l : list B) : option A :=
  match l with
  | [] => Some acc
  | x :: l' => acc' ← f acc x; foldlOpt f acc' l'
  end.

(** [agentUpdate(&agent, &askSlice, &bidSlice)]: all asks, then all bids. The
    agent reads [item.averagePrice] from the registry [market]. *)
Definition agentUpdate (fuel : nat) (market : registry) (agent : traderAgent)
    (askSlice : list asks) (bidSlice : list bids) : option traderAgent :=
  agent1 ← foldlOpt (askEntryUpdate fuel market) agent askSlice;
  foldlOpt (bidEntryUpdate fuel market) agent1 bidSlice.

(* ------------------------------------------------------------------ *)
(** ** [generateBids] *)

(** [commodityNeeds[c] = commodityNeeds[c] + quantity] *)
Definition addNeed (m : gmap cptr Z) (cs : commoditySet) : gmap cptr Z :=
  <[item cs := (lookupZ m (item cs) + quantity cs)%Z]> m.

(** [gatherRequirements(pm)]: inputs, then catalysts. *)
Definition gatherRequirements (pm : productionMethod) : gmap cptr Z :=
  fold_left addNeed (catalysts pm) (fold_left addNeed (inputs pm) ∅).

(** [cQMapConcat(mA, mB)]: for every [k, v] of [mB], add [v] to [mA[k]] when
    present, else insert it. *)
Definition cQMapConcat (mA mB : gmap cptr Z) : gmap cptr Z :=
  map_fold (fun k v mOut =>
              match mOut !! k with
              | Some x => <[k := (x + v)%Z]> mOut
              | None => <[k := v]> mOut
              end) mA mB.

(** [getAllAverageProductionValues(agent)]: the map from each method (pointer)
    to its value, as the list of its entries in method order. *)
Fixpoint allValuesFrom (agent : traderAgent) (idx : nat) (ms : list productionMethod)
  : result (list (productionMethod * Q)) :=
  match ms with
  | [] => Ok []
  | m :: ms' =>
      v ← getAverageProductionValue agent (Z.of_nat idx);
      rest ← allValuesFrom agent (S idx) ms';
      Ok ((m, v) :: rest)
  end.

Definition getAllAverageProductionValues (agent : traderAgent)
  : result (list (productionMethod * Q)) :=
  allValuesFrom agent 0 (methods (job agent)).

(** [sortedPVKeys(m)]: the keys, sorted with [Less(i, j) := m[pv[i]] > m[pv[j]]].
    Go fills [pv] in map iteration order, which is unspecified; the model
    starts from method order. *)
Definition sortedPVKeys (pvm : list (productionMethod * Q))
  : result (list productionMethod) :=
  sorted ← insertionSort (fun x y => Ok (Qltb (snd y) (snd x))) pvm;
  Ok (map fst sorted).

(** [cyclesToCover := 2] *)
Definition cyclesToCover : nat := 2.

(** The requirement loops of [generateBids]:
    [for i < riskAversion { for j < cyclesToCover { for _, pvSingle := range spv {
       invReqs = cQMapConcat(gatherRequirements(pvSingle), invReqs) } } }]. *)
Definition requirementsLoop (riskAversion_ : Z) (spv : list productionMethod)
  : gmap cptr Z :=
  Nat.iter (Z.to_nat riskAversion_)
    (fun invReqs =>
       Nat.iter cyclesToCover
         (fun invReqs =>
            fold_left (fun invReqs pvSingle => cQMapConcat (gatherRequirements pvSingle) invReqs)
              spv invReqs)
         invReqs)
    ∅.

(** [invReqs] as it stands before held inventory is subtracted. *)
Definition bidRequirements (agent : traderAgent) : result (gmap cptr Z) :=
  pvm ← getAllAverageProductionValues agent;
  spv ← sortedPVKeys pvm;
  Ok (requirementsLoop (riskAversion agent) spv).

(** [generateBids(&agent)]: subtract held inventory from the requirements that
    are present, then one bid per entry (Go's map order is unspecified; the
    model uses [map_to_list]). *)
Definition generateBids (agent : traderAgent) : result (list bids) :=
  invReqs ← bidRequirements agent;
  let trimmed := map_fold (fun com num r =>
                             match r !! com with
                             | Some x => <[com := (x - num)%Z]> r
                             | None => r
                             end) invReqs (inventory agent) in
  Ok (map (fun '(com, num) => mkBids (mkBid 0 com 1 (beliefMid agent com)) num 0)
          (map_to_list trimmed)).

(** The requirement map in the spec's words: the top [riskAversion] methods of
    the ranking, each counted for [cyclesToCover = 2] cycles, merged additively. *)
Definition specBidRequirements (riskAversion_ : Z) (spv : list productionMethod)
  : gmap cptr Z :=
  fold_left (fun acc pv => cQMapConcat (gatherRequirements pv)
                             (cQMapConcat (gatherRequirements pv) acc))
    (take (Z.to_nat riskAversion_) spv) ∅.

(* ------------------------------------------------------------------ *)
(** ** The clearinghouse matching loop for one commodity *)

(** The books are slices of pointers ([[]*asks], [[]*bids]); pointers are
    [nat] addresses into two heaps. *)
Record book := mkBook {
  askHeap : gmap nat asks;
  bidHeap : gmap nat bids;
  asksCom : list nat;
  bidsCom : list nat;
  asksIndex : nat;
  bidsIndex : nat;
  totalTransactions : Z;
  runningTotal : Q
}.

Definition derefAsk (st : book) (p : nat) : result asks :=
  match askHeap st !! p with Some a => Ok a | None => Panic "nil pointer" end.
Definition derefBid (st : book) (q : nat) : result bids :=
  match bidHeap st !! q with Some b => Ok b | None => Panic "nil pointer" end.

Definition withAskAccepted (a : asks) (n : Z) : asks :=
  mkAsks (offeredAsk a) (askNumberOffered a) n.
Definition withAskOffered (a : asks) (n : Z) : asks :=
  mkAsks (offeredAsk a) n (askNumberAccepted a).
Definition withOfferedAsk (a : asks) (o : ask) : asks :=
  mkAsks o (askNumberOffered a) (askNumberAccepted a).
Definition withSellFor (a : asks) (p : Q) : asks :=
  let o := offeredAsk a in
  withOfferedAsk a (mkAsk (ask_id o) (ask_item o) (ask_quantity o) p).

Definition withBidAccepted (b : bids) (n : Z) : bids :=
  mkBids (offeredBid b) (bidNumberOffered b) n.
Definition withBidOffered (b : bids) (n : Z) : bids :=
  mkBids (offeredBid b) n (bidNumberAccepted b).
Definition withOfferedBid (b : bids) (o : bid) : bids :=
  mkBids o (bidNumberOffered b) (bidNumberAccepted b).
Definition withBuyFor (b : bids) (p : Q) : bids :=
  let o := offeredBid b in
  withOfferedBid b (mkBid (bid_id o) (bid_item o) (bid_quantity o) p).

(** The split
    [asksCom = append(asksCom[:i+1], newAsks); asksCom = append(asksCom, asksCom[i+1:]...)]
    where [newAsks] is the pointer [asksCom[i]] itself. [asksCom[:i+1]] keeps
    the capacity of [asksCom], so when [i+1 < len] the first append writes
    [newAsks] over slot [i+1] of the shared array, which is also the first
    element of [asksCom[i+1:]]. With or without reallocation by the second
    append, the resulting slice is the one below (the old element [i+1] is
    lost and [p] appears at [i], [i+1] and [i+2]); when [i+1 = len] it is
    [asksCom ++ [p]]. *)
Definition spliceAfter {A} (l : list A) (i : nat) (p : A) : list A :=
  take (S i) l ++ p :: match drop (S i) l with [] => [] | _ :: t => p :: t end.

(** One pass of the body of the matching [for] loop; [false] = [break]. *)
Definition matchStep (st : book) : result (book * bool) :=
  let i := asksIndex st in
  let j := bidsIndex st in
  p ← index (asksCom st) i; q ← index (bidsCom st) j;
  a ← derefAsk st p; b ← derefBid st q;
  let asksQuantityRemaining := (askNumberOffered a - askNumberAccepted a)%Z in
  let bidsQuantityRemaining := (bidNumberOffered b - bidNumberAccepted b)%Z in
  if Qltb (buyFor (offeredBid b)) (sellFor (offeredAsk a)) then Ok (st, false)
  else
  let '(a', b', asks', bids', total', running') :=
    if (bidsQuantityRemaining <=? asksQuantityRemaining)%Z then
      let a1 := withAskAccepted a (askNumberAccepted a + bidsQuantityRemaining) in
      let b1 := withBidAccepted b (bidNumberOffered b) in
      let total1 := (totalTransactions st + bidNumberAccepted b1)%Z in
      (* [newAsks := asksCom[asksIndex]] is the pointer [p]: the three field
         writes of the split go to the matched ask itself. *)
      let '(a2, asks2) :=
        if (asksQuantityRemaining =? bidsQuantityRemaining)%Z then (a1, asksCom st)
        else
          let newAsk := offeredAsk a1 in
          let a1z := withAskAccepted a1 0 in
          let a1o := withAskOffered a1z (askNumberOffered a1z - askNumberAccepted a1z) in
          (withOfferedAsk a1o newAsk, spliceAfter (asksCom st) i p) in
      (* after the split, [asksCom[asksIndex]] is still [p] *)
      let a3 := withAskOffered a2 (askNumberAccepted a2) in
      let a4 := withSellFor a3 ((sellFor (offeredAsk a3) + buyFor (offeredBid b1)) / 2) in
      let b2 := withBuyFor b1 (sellFor (offeredAsk a4)) in
      (a4, b2, asks2, bidsCom st, total1,
       runningTotal st + buyFor (offeredBid b2) * inject_Z (bidNumberAccepted b2))
    else
      let b1 := withBidAccepted b (bidNumberAccepted b + asksQuantityRemaining) in
      let a1 := withAskAccepted a (askNumberOffered a) in
      let total1 := (totalTransactions st + askNumberAccepted a1)%Z in
      (* [newBids := bidsCom[bidsIndex]] is the pointer [q] *)
      let newBid := offeredBid b1 in
      let b1z := withBidAccepted b1 0 in
      let b1o := withBidOffered b1z (bidNumberOffered b1z - bidNumberAccepted b1z) in
      let b2 := withOfferedBid b1o newBid in
      let bids2 := spliceAfter (bidsCom st) j q in
      let b3 := withBidOffered b2 (bidNumberAccepted b2) in
      let a2 := withSellFor a1 ((sellFor (offeredAsk a1) + buyFor (offeredBid b3)) / 2) in
      let b4 := withBuyFor b3 (sellFor (offeredAsk a2)) in
      (a2, b4, asksCom st, bids2, total1,
       runningTotal st + sellFor (offeredAsk a2) * inject_Z (askNumberAccepted a2)) in
  let st' := mkBook (<[p := a']> (askHeap st)) (<[q := b']> (bidHeap st))
               asks' bids' (S i) (S j) total' running' in
  Ok (st', negb ((length bids' <=? S j)%nat || (length asks' <=? S i)%nat)).

(** The [for { ... }] loop, with fuel. *)
Fixpoint matchLoop (fuel : nat) (st : book) : result book :=
  match fuel with
  | 0%nat => Panic "loop bound"
  | S f =>
      matchStep st ≫= λ r : book * bool,
        let '(st', continue) := r in
        if continue then matchLoop f st' else Ok st'
  end.

(** One commodity's clearing, from the sorted books to the price update:
    [if len(asksCom) > 0 && len(bidsCom) > 0 { for {...} }] and
    [if totalTransactions != 0 { com.averagePrice = runningTotal / float64(totalTransactions) }].
    Each pass advances [asksIndex] and [bidsIndex] and a split grows only the
    other list, so [len asks + len bids] passes are enough. *)
Definition clearCommodity (market : registry) (com : cptr) (aheap : gmap nat asks)
    (bheap : gmap nat bids) (asksCom0 bidsCom0 : list nat) : result (registry * book) :=
  let st0 := mkBook aheap bheap asksCom0 bidsCom0 0 0 0 0 in
  st ← (if (0 <? length asksCom0)%nat && (0 <? length bidsCom0)%nat
        then matchLoop (length asksCom0 + length bidsCom0) st0
        else Ok st0);
  if (totalTransactions st =? 0)%Z then Ok (market, st)
  else Ok (<[com := runningTotal st / inject_Z (totalTransactions st)]> market, st).

(** Sums of [numberAccepted] over the entries of the books. *)
Definition sumAskAccepted (st : book) : Z :=
  fold_right (fun p acc => (askNumberAccepted (default (mkAsks (mkAsk 0 "" 0 0) 0 0)
                                                  (askHeap st !! p)) + acc)%Z) 0%Z (asksCom st).
Definition sumBidAccepted (st : book) : Z :=
  fold_right (fun q acc => (bidNumberAccepted (default (mkBids (mkBid 0 "" 0 0) 0 0)
                                                  (bidHeap st !! q)) + acc)%Z) 0%Z (bidsCom st).

(* ------------------------------------------------------------------ *)
(** ** [agentRun]: the agent's cycle loop *)

(** How the agent's loop ends: [Died] (funds <= 0, the agent is sent on
    [deadAgent]) after [cycles] cycles; [Alive] when the cycle budget of the
    model is used up; [Hung] when a belief correction of cycle [cycle] did not
    finish within its fuel; [Panicked] on a run-time panic. *)
Inductive runOutcome :=
| Died (agent : traderAgent) (cycles : nat)
| Alive (agent : traderAgent)
| Hung (cycle : nat)
| Panicked (cycle : nat) (why : string).

(** [for alive { performProduction; send offers; receive results; agentUpdate;
    if agent.funds <= 0 { alive = false } }]. The offers the agent builds
    ([generateAsks], [generateBids]) only read the agent; what comes back from
    the market in cycle [k] is [env k], read against the registry [markets k]. *)
Fixpoint agentLoop (fuel : nat) (rng : nat -> Q) (markets : nat -> registry)
    (env : nat -> list asks * list bids) (budget k : nat) (agent : traderAgent)
    (n : nat) : runOutcome :=
  match budget with
  | 0%nat => Alive agent
  | S budget' =>
      match performProduction rng (markets k) agent n with
      | Panic why => Panicked k why
      | Ok (agent1, n1) =>
          match agentUpdate fuel (markets k) agent1 (fst (env k)) (snd (env k)) with
          | None => Hung k
          | Some agent2 =>
              if Qle_bool (funds agent2) 0 then Died agent2 (S k)
              else agentLoop fuel rng markets env budget' (S k) agent2 n1
          end
      end
  end.

(* ------------------------------------------------------------------ *)
(** ** The configuration built by [main] *)

Definition wood : cptr := "Wood".
Definition tools : cptr := "Tools".
Definition food : cptr := "Food".
Definition ore : cptr := "Ore".
Definition metal : cptr := "Metal".

(** Every commodity starts at [averagePrice = 3]. *)
Definition initialMarket : registry :=
  list_to_map [(wood, 3); (tools, 3); (food, 3); (ore, 3); (metal, 3)].

Definition singleWood := mkCommoditySet wood 1.
Definition twoFood := mkCommoditySet food 2.
Definition fourFood := mkCommoditySet food 4.
Definition singleTools := mkCommoditySet tools 1.

(** [farmerProd]: one wood gives two food. *)
Definition farmerProd : productionMethod :=
  mkProductionMethod [singleWood] [] [twoFood] [].

(** [farmerToolsProd]: one wood, with tools as catalyst (consumed with
    probability 0.1), gives four food. *)
Definition farmerToolsProd : productionMethod :=
  mkProductionMethod [singleWood] [singleTools] [fourFood] [1 # 10].

(** [farmerProdSet]: methods [farmerProd; farmerToolsProd], penalty 2. *)
Definition farmerProdSet : productionSet :=
  mkProductionSet [farmerProd; farmerToolsProd] 2.

(** Beliefs with midpoint 3 for every commodity. *)
Definition beliefs3 : gmap cptr priceRange :=
  list_to_map [(wood, mkPriceRange 2 4); (tools, mkPriceRange 2 4);
               (food, mkPriceRange 2 4); (ore, mkPriceRange 2 4);
               (metal, mkPriceRange 2 4)].

(** A farmer as [makeFarmer] builds one with [grantGoods] (two wood, one
    tools), funds 50 and [riskAversion = 1]. *)
Definition sampleFarmer : traderAgent :=
  mkTraderAgent "Farmer" farmerProdSet (list_to_map [(wood, 2%Z); (tools, 1%Z)])
    beliefs3 50 1.

(** Scenario A: one ask [{quantity=1, numberOffered=5, sellFor=10}] and one bid
    [{quantity=1, numberOffered=3, buyFor=12}] for commodity ["X"]. *)
Definition scenarioAMarket : registry := {[ "X" := 3 ]}.
Definition scenarioAAsks : gmap nat asks := {[ 0%nat := mkAsks (mkAsk 0 "X" 1 10) 5 0 ]}.
Definition scenarioABids : gmap nat bids := {[ 0%nat := mkBids (mkBid 1 "X" 1 12) 3 0 ]}.

(** A belief [low = 0.01 < high = 0.5] on wood, with wood's average at 0.1. *)
Definition clampAgent : traderAgent :=
  mkTraderAgent "Farmer" farmerProdSet ∅ {[ wood := mkPriceRange (1 # 100) (1 # 2) ]} 50 1.
Definition clampMarket : registry := {[ wood := 1 # 10 ]}.
Definition rejectedWoodAsk : asks := mkAsks (mkAsk 0 wood 1 (51 # 200)) 3 0.
Definition rejectedWoodBid : bids := mkBids (mkBid 0 wood 1 (51 # 200)) 3 0.

(** A belief interval as [agentUpdate] may leave it: [low >= 0], and
    [low < high] unless [low] is the floor value 0.5 set by the clamp. *)
Definition flooredBelief (pr : priceRange) : Prop :=
  0 <= low pr /\ (low pr < high pr \/ low pr = 1 # 2).

(** Each commodity's belief is the original one or a floored one. *)
Definition beliefsFloored (agent0 agent : traderAgent) : Prop :=
  forall c, priceBelief agent !! c = priceBelief agent0 !! c \/
            exists pr, priceBelief agent !! c = Some pr /\ flooredBelief pr.

(** A method whose every catalyst has a consumption rate, so that valuing it
    does not index [consumption] out of range (true of every method built by
    [main]). *)
Definition catalystsPriced (m : productionMethod) : Prop :=
  (length (catalysts m) <= length (consumption m))%nat.

(** Result slices in which no entry was accepted. *)
Definition noneAccepted (offers : list asks * list bids) : Prop :=
  Forall (fun a => askNumberAccepted a = 0%Z) (fst offers) /\
  Forall (fun b => bidNumberAccepted b = 0%Z) (snd offers).

(** Scenario D: a farmer with nothing in stock and funds 10, offered nothing. *)
Definition idleFarmer : traderAgent :=
  mkTraderAgent "Farmer" farmerProdSet ∅ beliefs3 10 1.
Definition noOffers (k : nat) : list asks * list bids := ([], []).

(* ------------------------------------------------------------------ *)
(** ** [gatherAllRequirements], [generateAsks] *)

(** [gatherAllRequirements(agent)]: inputs and catalysts of every method of
    the job, added up per commodity. *)
Definition gatherAllRequirements (agent : traderAgent) : gmap cptr Z :=
  fold_left (fun needs m => fold_left addNeed (catalysts m) (fold_left addNeed (inputs m) needs))
    (methods (job agent)) ∅.

(** [generateAsks(&agent)]: one ask per held commodity that no method needs
    ([_, ok := cnm[com]; if !ok]), offering the whole held amount at the
    belief midpoint. Go's map order is unspecified; the model uses
    [map_to_list]. *)
Definition generateAsks (agent : traderAgent) : list asks :=
  let cnm := gatherAllRequirements agent in
  map (fun '(com, num) => mkAsks (mkAsk 0 com 1 (beliefMid agent com)) num 0)
    (List.filter (fun kv => match cnm !! kv.1 with Some _ => false | None => true end)
       (map_to_list (inventory agent))).

(* ------------------------------------------------------------------ *)
(** ** [randomPriceBelief] *)

(** [for _, aCommodity := range commodityList { pr.high = avg + rand.Float64()*avg;
    pr.low = avg - rand.Float64()*avg; prMap[aCommodity] = pr }], with the
    commodities in the order [coms] and the draws [rng n], [rng (n+1)], ...
    The arithmetic is exact; float64 rounding is not modelled, so only
    non-strict bounds, which rounding preserves, are stated about it. *)
Fixpoint randomPriceBeliefLoop (rng : nat -> Q) (market : registry) (coms : list cptr)
    (prMap : gmap cptr priceRange) (n : nat) : gmap cptr priceRange * nat :=
  match coms with
  | [] => (prMap, n)
  | c :: cs =>
      let avg := averagePrice market c in
      let hi := avg + rng n * avg in
      let lo := avg - rng (S n) * avg in
      randomPriceBeliefLoop rng market cs (<[c := mkPriceRange lo hi]> prMap) (S (S n))
  end.

Definition randomPriceBelief (rng : nat -> Q) (market : registry) (coms : list cptr)
    (n : nat) : gmap cptr priceRange * nat :=
  randomPriceBeliefLoop rng market coms ∅ n.

(* ------------------------------------------------------------------ *)
(** ** Replacing a dead agent *)

(** [maxCom := allCommodities["Food"]; for _, com := range allCommodities {
    if com.averagePrice > maxCom.averagePrice { maxCom = com } }] *)
Definition mostExpensive (market : registry) (coms : list cptr) : cptr :=
  fold_left (fun maxCom com =>
               if Qltb (averagePrice market maxCom) (averagePrice market com)
               then com else maxCom) coms food.

(** The role started in place of a dead agent: [switch maxCom.name]. *)
Definition respawnRole (name : string) : option string :=
  if String.eqb name "Food" then Some "Farmer"
  else if String.eqb name "Ore" then Some "Miner"
  else if String.eqb name "Metal" then Some "Refiner"
  else if String.eqb name "Wood" then Some "Woodcutter"
  else if String.eqb name "Tools" then Some "Blacksmith"
  else None.

(** The total quantity of commodity [c] in a list of commodity sets (used to
    state properties). *)
Definition qtyOf (c : cptr) (l : list commoditySet) : Z :=
  fold_right (fun cs acc => ((if decide (item cs = c) then quantity cs else 0) + acc)%Z) 0%Z l.

(** Commodity [c] is an input or a catalyst of one of the methods [ms]. *)
Definition neededBy (ms : list productionMethod) (c : cptr) : Prop :=
  Exists (fun m => Exists (fun cs => item cs = c) (inputs m) \/
                   Exists (fun cs => item cs = c) (catalysts m)) ms.

(** What one result entry does to the agent's funds and inventory, as the
    accepted branches of [agentUpdate] book it (used to state properties). *)
Definition askRevenue (x : asks) : Q :=
  if (0 <? askNumberAccepted x)%Z
  then inject_Z (ask_quantity (offeredAsk x)) * inject_Z (askNumberAccepted x)
       * sellFor (offeredAsk x)
  else 0.
Definition askSold (c : cptr) (x : asks) : Z :=
  if (0 <? askNumberAccepted x)%Z
  then if decide (ask_item (offeredAsk x) = c)
       then (ask_quantity (offeredAsk x) * askNumberAccepted x)%Z else 0%Z
  else 0%Z.
Definition bidCost (x : bids) : Q :=
  if (0 <? bidNumberAccepted x)%Z
  then inject_Z (bid_quantity (offeredBid x)) * inject_Z (bidNumberAccepted x)
       * buyFor (offeredBid x)
  else 0.
Definition bidBought (c : cptr) (x : bids) : Z :=
  if (0 <? bidNumberAccepted x)%Z
  then if decide (bid_item (offeredBid x) = c)
       then (bid_quantity (offeredBid x) * bidNumberAccepted x)%Z else 0%Z
  else 0%Z.

(** An ask of two wood at 3 that was fully accepted. *)
Definition acceptedWoodAsk : asks := mkAsks (mkAsk 0 wood 1 3) 2 2.

(** The state the matching loop relies on: both indexes in range and every
    pointer of both books pointing to an entry. *)
Definition bookSound (st : book) : Prop :=
  lt (asksIndex st) (length (asksCom st)) /\ lt (bidsIndex st) (length (bidsCom st)) /\
  Forall (fun p => is_Some (askHeap st !! p)) (asksCom st) /\
  Forall (fun q => is_Some (bidHeap st !! q)) (bidsCom st).

(** Entries left to visit in the two books. *)
Definition bookMeasure (st : book) : nat :=
  (length (asksCom st) - asksIndex st) + (length (bidsCom st) - bidsIndex st).

(* ================================================================== *)
(** * Properties *)

(** ** Helper lemmas on the belief correction *)

Lemma Qle_bool_false (x y : Q) : Qle_bool x y = false <-> y < x.
Proof.
  split.
  - intros H. apply Qnot_le_lt. intros Hle. apply Qle_bool_iff in Hle. congruence.
  - intros H. destruct (Qle_bool x y) eqn:E; [|reflexivity].
    apply Qle_bool_iff in E. exfalso. apply (Qlt_not_le y x); assumption.
Qed.

Lemma correctLow_lt (pct itemAvg agentHigh : Q) :
  forall fuel agentLow l, correctLow fuel pct itemAvg agentHigh agentLow = Some l ->
  l < agentHigh.
Proof.
  induction fuel as [|f IH]; intros agentLow l H; simpl in H;
    destruct (Qle_bool agentHigh agentLow) eqn:E.
  - discriminate.
  - injection H as <-. apply Qle_bool_false. exact E.
  - eapply IH. exact H.
  - injection H as <-. apply Qle_bool_false. exact E.
Qed.

(** With [high <= averagePrice <= low], every step keeps [low >= averagePrice]:
    the loop never ends. *)
Lemma correctLow_stuck (pct itemAvg agentHigh : Q) :
  0 <= pct -> pct <= 1 -> agentHigh <= itemAvg ->
  forall fuel agentLow, itemAvg <= agentLow ->
  correctLow fuel pct itemAvg agentHigh agentLow = None.
Proof.
  intros Hp0 Hp1 Hh.
  induction fuel as [|f IH]; intros agentLow Hl; simpl;
    assert (E : Qle_bool agentHigh agentLow = true)
      by (apply Qle_bool_iff; apply (Qle_trans _ itemAvg); assumption);
    rewrite E; [reflexivity|].
  apply IH. unfold lowerStep.
  assert (Habs : Qabs (agentLow - itemAvg) == agentLow - itemAvg)
    by (apply Qabs_pos; lra).
  rewrite Habs. nra.
Qed.

(** ** C7: termination of the degenerate-interval correction *)

(** C7 (amended): the corrective loop [for agentLow >= agentHigh { agentLow -=
    |agentLow - averagePrice| * pct }] does not always terminate. With a step
    fraction [0 <= pct <= 1/2] (the code uses 0.2 and 0.01), once an
    adjustment leaves [agentHigh <= averagePrice <= agentLow], no step takes
    [agentLow] below [averagePrice]. So [agentLow >= agentHigh] holds forever
    and the loop never ends, whatever the iteration budget. *)
Theorem correctLow_never_ends (pct itemAvg agentHigh agentLow : Q) :
  0 <= pct -> pct <= 1 # 2 -> agentHigh <= itemAvg -> itemAvg <= agentLow ->
  ~ (exists fuel, correctLow fuel pct itemAvg agentHigh agentLow <> None).
Proof.
  intros Hp0 Hp1 Hh Hl [fuel H]. apply H.
  apply correctLow_stuck; [exact Hp0|lra|exact Hh|exact Hl].
Qed.

Lemma correctLow_never_ends_witness :
  0 <= bigPercent /\ bigPercent <= 1 # 2 /\ 2 <= 3 /\ 3 <= 4 /\
  ~ (exists fuel, correctLow fuel bigPercent 3 2 4 <> None).
Proof.
  assert (H0 : 0 <= bigPercent) by (unfold bigPercent; lra).
  assert (H1 : bigPercent <= 1 # 2) by (unfold bigPercent; lra).
  assert (H2 : 2 <= 3) by lra.
  assert (H3 : 3 <= 4) by lra.
  split; [exact H0|]. split; [exact H1|]. split; [exact H2|]. split; [exact H3|].
  exact (correctLow_never_ends bigPercent 3 2 4 H0 H1 H2 H3).
Defined.

(** C7 (counterexample): the belief [low = 0.5, high = 0.42] is the one the
    clamp produces in the C2 counterexample. If wood's average is then 0.5 and
    the agent's ask is accepted, the upward adjustment gives [high = 0.436],
    [low = 0.5 = averagePrice]: every correction step subtracts
    [|0.5 - 0.5| * 0.2 = 0], and the loop never ends. *)
Lemma correctLow_diverges_after_raise :
  ~ (exists fuel, raiseBelief fuel bigPercent (1 # 2) (21 # 50) (1 # 2) <> None).
Proof.
  intros [fuel H]. apply H. unfold raiseBelief. cbv zeta.
  rewrite correctLow_stuck; [reflexivity|..].
  all: first [unfold bigPercent; lra | apply Qle_bool_iff; vm_compute; reflexivity].
Qed.

(** ** Shape of one belief update *)

Lemma raiseBelief_lt fuel pct itemAvg agentHigh agentLow h l :
  raiseBelief fuel pct itemAvg agentHigh agentLow = Some (h, l) -> l < h.
Proof.
  unfold raiseBelief. simpl.
  destruct (correctLow _ _ _ _ _) eqn:E; simpl; intros H; [|discriminate].
  injection H as <- <-. eapply correctLow_lt. exact E.
Qed.

Lemma lowerBelief_lt fuel pct itemAvg agentHigh agentLow h l :
  lowerBelief fuel pct itemAvg agentHigh agentLow = Some (h, l) -> l < h.
Proof.
  unfold lowerBelief. simpl.
  destruct (correctLow _ _ _ _ _) eqn:E; simpl; intros H; [|discriminate].
  injection H as <- <-. eapply correctLow_lt. exact E.
Qed.

(** Case analysis on the branches of an entry update that returned. *)
Ltac entry_shape H :=
  repeat case_match; simplify_eq/=;
  match type of H with ?r ≫= _ = Some _ => destruct r as [[? ?]|] eqn:? end;
  simpl in H; try discriminate; injection H as <-;
  (eexists _, _; split; [first [eapply raiseBelief_lt; eassumption | eapply lowerBelief_lt; eassumption]|];
   split; [reflexivity|]; split; [reflexivity|];
   intros Hle;
   first [ reflexivity | split; reflexivity
         | exfalso; match goal with Hb : (0 <? _)%Z = true |- _ => apply Z.ltb_lt in Hb; lia end ]).

(** An ask entry's update writes one belief [(floorLow low, high)] with
    [low < high] at the entry's commodity, keeps the job, and with no unit
    accepted keeps funds and inventory. *)
Lemma askEntryUpdate_shape fuel market agent askSet agent' :
  askEntryUpdate fuel market agent askSet = Some agent' ->
  exists h l, l < h /\
    priceBelief agent' =
      (<[ask_item (offeredAsk askSet) := mkPriceRange (floorLow l) h]> (priceBelief agent)) /\
    job agent' = job agent /\
    ((askNumberAccepted askSet <= 0)%Z ->
     funds agent' = funds agent /\ inventory agent' = inventory agent).
Proof. unfold askEntryUpdate. intros H. entry_shape H. Qed.

Lemma bidEntryUpdate_shape fuel market agent bidSet agent' :
  bidEntryUpdate fuel market agent bidSet = Some agent' ->
  exists h l, l < h /\
    priceBelief agent' =
      (<[bid_item (offeredBid bidSet) := mkPriceRange (floorLow l) h]> (priceBelief agent)) /\
    job agent' = job agent /\
    ((bidNumberAccepted bidSet <= 0)%Z ->
     funds agent' = funds agent /\ inventory agent' = inventory agent).
Proof. unfold bidEntryUpdate. intros H. entry_shape H. Qed.

(** ** C2: the belief interval after [agentUpdate] *)

Lemma floorLow_floored (l h : Q) : l < h -> flooredBelief (mkPriceRange (floorLow l) h).
Proof.
  intros Hlt. unfold flooredBelief, floorLow, Qltb; simpl.
  destruct (Qle_bool 0 l) eqn:E; simpl.
  - apply Qle_bool_iff in E. split; [exact E|left; exact Hlt].
  - split; [discriminate|right; reflexivity].
Qed.

Lemma foldlOpt_invariant {A B} (f : A -> B -> option A) (P : A -> Prop) :
  (forall a x a', P a -> f a x = Some a' -> P a') ->
  forall l a a', P a -> foldlOpt f a l = Some a' -> P a'.
Proof.
  intros Hstep l. induction l as [|x l IH]; intros a a' Ha H; simpl in H.
  - injection H as <-. exact Ha.
  - destruct (f a x) as [a1|] eqn:E; simpl in H; [|discriminate].
    apply (IH a1); [eapply Hstep; eassumption|exact H].
Qed.

Lemma beliefsFloored_insert agent0 agent agent' it l h :
  beliefsFloored agent0 agent -> l < h ->
  priceBelief agent' = (<[it := mkPriceRange (floorLow l) h]> (priceBelief agent)) ->
  beliefsFloored agent0 agent'.
Proof.
  intros Hinv Hlt Hpb c. rewrite Hpb.
  destruct (decide (it = c)) as [<-|Hne].
  - right. exists (mkPriceRange (floorLow l) h).
    split; [apply lookup_insert_eq|apply floorLow_floored; exact Hlt].
  - rewrite lookup_insert_ne by exact Hne. apply Hinv.
Qed.

(** C2 (amended): after [agentUpdate] returns, every commodity's belief is
    either untouched or satisfies [low >= 0] and [low < high], except that the
    clamp of a negative [low] to 0.5 may leave [low = 0.5 >= high]. *)
Theorem agentUpdate_beliefs_floored (fuel : nat) (market : registry)
    (agent agent' : traderAgent) (askSlice : list asks) (bidSlice : list bids) :
  agentUpdate fuel market agent askSlice bidSlice = Some agent' ->
  forall c, priceBelief agent' !! c = priceBelief agent !! c \/
            exists pr, priceBelief agent' !! c = Some pr /\
                       0 <= low pr /\ (low pr < high pr \/ low pr = 1 # 2).
Proof.
  unfold agentUpdate. intros H.
  destruct (foldlOpt (askEntryUpdate fuel market) agent askSlice) as [agent1|] eqn:E1;
    simpl in H; [|discriminate].
  assert (Hask : forall a x a', beliefsFloored agent a ->
            askEntryUpdate fuel market a x = Some a' -> beliefsFloored agent a').
  { intros a x a' Ha Hx.
    destruct (askEntryUpdate_shape _ _ _ _ _ Hx) as (h & l & Hlt & Hpb & _).
    eapply beliefsFloored_insert; eassumption. }
  assert (Hbid : forall a x a', beliefsFloored agent a ->
            bidEntryUpdate fuel market a x = Some a' -> beliefsFloored agent a').
  { intros a x a' Ha Hx.
    destruct (bidEntryUpdate_shape _ _ _ _ _ Hx) as (h & l & Hlt & Hpb & _).
    eapply beliefsFloored_insert; eassumption. }
  exact (foldlOpt_invariant _ _ Hbid bidSlice agent1 agent'
           (foldlOpt_invariant _ _ Hask askSlice agent agent1 (fun c => or_introl eq_refl) E1) H).
Qed.

Lemma agentUpdate_beliefs_floored_witness :
  exists agent', agentUpdate 10 clampMarket clampAgent [rejectedWoodAsk] [] = Some agent' /\
  forall c, priceBelief agent' !! c = priceBelief clampAgent !! c \/
            exists pr, priceBelief agent' !! c = Some pr /\
                       0 <= low pr /\ (low pr < high pr \/ low pr = 1 # 2).
Proof.
  eexists. split; [reflexivity|].
  apply (agentUpdate_beliefs_floored 10 clampMarket clampAgent _ [rejectedWoodAsk] []).
  reflexivity.
Defined.

(** C2 (counterexample): from the belief [low = 0.01 < high = 0.5] on wood,
    with wood's average at 0.1, a rejected ask lowers the interval to
    [high = 0.42], [low = -0.008]; the clamp then sets [low = 0.5 > high]. *)
Lemma agentUpdate_clamp_inverts :
  exists agent', agentUpdate 10 clampMarket clampAgent [rejectedWoodAsk] [] = Some agent' /\
  high (belief agent' wood) < low (belief agent' wood).
Proof.
  eexists. split; [reflexivity|]. vm_compute. reflexivity.
Qed.

(** ** C10: frame of a rejected entry *)

(** C10: for an ask entry, or a bid entry, with [numberAccepted = 0], the
    entry's step of [agentUpdate] leaves funds, inventory, job and every other
    field unchanged and writes only the [priceBelief] entry of the entry's
    commodity. *)
Theorem entryUpdate_rejected_frame (fuel : nat) (market : registry)
    (agent agentA agentB : traderAgent) (askSet : asks) (bidSet : bids) :
  askNumberAccepted askSet = 0%Z -> bidNumberAccepted bidSet = 0%Z ->
  askEntryUpdate fuel market agent askSet = Some agentA ->
  bidEntryUpdate fuel market agent bidSet = Some agentB ->
  (exists pr, agentA =
     set_priceBelief agent (<[ask_item (offeredAsk askSet) := pr]> (priceBelief agent))) /\
  (exists pr, agentB =
     set_priceBelief agent (<[bid_item (offeredBid bidSet) := pr]> (priceBelief agent))).
Proof.
  intros Ha Hb HA HB. split.
  - unfold askEntryUpdate in HA. rewrite Ha in HA.
    repeat case_match; simplify_eq/=;
    match type of HA with ?r ≫= _ = Some _ => destruct r as [[? ?]|] end;
    simpl in HA; try discriminate; injection HA as <-; eexists; reflexivity.
  - unfold bidEntryUpdate in HB. rewrite Hb in HB.
    repeat case_match; simplify_eq/=;
    match type of HB with ?r ≫= _ = Some _ => destruct r as [[? ?]|] end;
    simpl in HB; try discriminate; injection HB as <-; eexists; reflexivity.
Qed.

Lemma entryUpdate_rejected_frame_witness :
  exists agentA agentB,
    askEntryUpdate 10 clampMarket clampAgent rejectedWoodAsk = Some agentA /\
    bidEntryUpdate 10 clampMarket clampAgent rejectedWoodBid = Some agentB /\
    (exists pr, agentA =
       set_priceBelief clampAgent (<[wood := pr]> (priceBelief clampAgent))) /\
    (exists pr, agentB =
       set_priceBelief clampAgent (<[wood := pr]> (priceBelief clampAgent))).
Proof.
  eexists _, _. split; [reflexivity|]. split; [reflexivity|].
  apply (entryUpdate_rejected_frame 10 clampMarket clampAgent _ _ rejectedWoodAsk rejectedWoodBid);
    reflexivity.
Defined.

(* ------------------------------------------------------------------ *)
(** ** Out-of-range production numbers *)

(** C9 (corrected): for every [productionNumber >= len(methods)],
    [getAverageProductionValue] returns the value -1; it neither panics nor
    reports an error. Only a negative index panics. *)
Theorem getAverageProductionValue_out_of_range (agent : traderAgent) (n : Z) :
  (Z.of_nat (length (methods (job agent))) <= n)%Z ->
  getAverageProductionValue agent n = Ok (-1).
Proof.
  intros Hn. unfold getAverageProductionValue.
  apply Z.leb_le in Hn. rewrite Hn. reflexivity.
Qed.

Lemma getAverageProductionValue_out_of_range_witness :
  (Z.of_nat (length (methods (job sampleFarmer))) <= 2)%Z /\
  getAverageProductionValue sampleFarmer 2 = Ok (-1).
Proof.
  split; [vm_compute; discriminate|].
  apply getAverageProductionValue_out_of_range. vm_compute. discriminate.
Defined.

(** C9 counterexample: index 2 of the farmer's two methods yields the value
    -1, not a panic. *)
Lemma getAverageProductionValue_index2_default :
  getAverageProductionValue sampleFarmer 2 = Ok (-1) /\
  ~ (exists why, getAverageProductionValue sampleFarmer 2 = Panic why).
Proof.
  split; [reflexivity|]. intros [why H]. vm_compute in H. discriminate.
Qed.

(** A negative index panics. *)
Lemma getAverageProductionValue_negative (agent : traderAgent) (n : Z) :
  (n < 0)%Z -> exists why, getAverageProductionValue agent n = Panic why.
Proof.
  intros Hn. unfold getAverageProductionValue.
  destruct (Z.leb_spec (Z.of_nat (length (methods (job agent)))) n); [lia|].
  apply Z.ltb_lt in Hn. rewrite Hn. eexists; reflexivity.
Qed.

(* ------------------------------------------------------------------ *)
(** ** The ranking of [performProduction] *)

(** C4 (code bug): [ByMarketValue.Less] compares with [<], so [sort.Sort]
    puts the lowest market value first. For the farmer of [main] at the
    initial prices, [farmerProd] (value 3) is ranked before [farmerToolsProd]
    (value 8.7), both are executable, and [farmerProd] is the one that runs:
    one wood is spent and two food are made. *)
Lemma performProduction_ranks_ascending :
  exists v1 v2 agent' n',
    getMarketValue initialMarket farmerProd = Ok v1 /\
    getMarketValue initialMarket farmerToolsProd = Ok v2 /\ v1 < v2 /\
    executable (inventory sampleFarmer) farmerProd = true /\
    executable (inventory sampleFarmer) farmerToolsProd = true /\
    performProduction (fun _ => 0) initialMarket sampleFarmer 0 = Ok (agent', n') /\
    methods (job agent') = [farmerProd; farmerToolsProd] /\
    lookupZ (inventory agent') food = 2%Z /\ lookupZ (inventory agent') wood = 1%Z.
Proof.
  do 4 eexists.
  split; [reflexivity|]. split; [reflexivity|].
  split; [vm_compute; reflexivity|].
  split; [reflexivity|]. split; [reflexivity|].
  split; [reflexivity|].
  split; [reflexivity|]. split; vm_compute; reflexivity.
Qed.

(* ------------------------------------------------------------------ *)
(** ** The requirements of [generateBids] *)

(** C5 (code bug): the requirement loop runs over every method of the ranking,
    not over the top [riskAversion] ones. For the farmer of [main]
    ([riskAversion = 1]) the ranking is [farmerToolsProd; farmerProd]; the
    code requires 4 wood where the top method alone, counted for two cycles,
    requires 2. *)
Lemma bidRequirements_counts_every_method :
  exists pvm reqs,
    getAllAverageProductionValues sampleFarmer = Ok pvm /\
    sortedPVKeys pvm = Ok [farmerToolsProd; farmerProd] /\
    bidRequirements sampleFarmer = Ok reqs /\
    lookupZ reqs wood = 4%Z /\ lookupZ reqs tools = 2%Z /\
    lookupZ (specBidRequirements (riskAversion sampleFarmer)
               [farmerToolsProd; farmerProd]) wood = 2%Z /\
    lookupZ (specBidRequirements (riskAversion sampleFarmer)
               [farmerToolsProd; farmerProd]) tools = 2%Z.
Proof.
  do 2 eexists.
  split; [reflexivity|]. split; [vm_compute; reflexivity|].
  split; [reflexivity|].
  repeat split; vm_compute; reflexivity.
Qed.

(* ------------------------------------------------------------------ *)
(** ** Scenario A *)

(** C3 (code bug): in Scenario A three units clear at 11, but the split
    writes through the matched ask's own pointer: the ask book becomes that
    pointer twice, and the one ask entry ends with [numberOffered = 0] and
    [numberAccepted = 0] (no {3, 3} entry, no {2, 0} residual). *)
Lemma scenarioA_split_overwrites_ask :
  exists market' st v,
    clearCommodity scenarioAMarket "X" scenarioAAsks scenarioABids [0%nat] [0%nat]
      = Ok (market', st) /\
    market' !! "X" = Some v /\ v == 11 /\
    totalTransactions st = 3%Z /\
    asksCom st = [0%nat; 0%nat] /\
    askNumberOffered (default (mkAsks (mkAsk 0 "" 0 0) 0 0) (askHeap st !! 0%nat)) = 0%Z /\
    askNumberAccepted (default (mkAsks (mkAsk 0 "" 0 0) 0 0) (askHeap st !! 0%nat)) = 0%Z.
Proof.
  do 3 eexists.
  split; [vm_compute; reflexivity|].
  split; [vm_compute; reflexivity|].
  split; [vm_compute; reflexivity|].
  repeat split; vm_compute; reflexivity.
Qed.

(** C1 (code bug): after the matching pass of Scenario A the bids have
    accepted 3 units and the asks 0. *)
Lemma scenarioA_accepted_not_conserved :
  exists market' st,
    clearCommodity scenarioAMarket "X" scenarioAAsks scenarioABids [0%nat] [0%nat]
      = Ok (market', st) /\
    sumAskAccepted st = 0%Z /\ sumBidAccepted st = 3%Z.
Proof.
  do 2 eexists.
  split; [vm_compute; reflexivity|].
  split; vm_compute; reflexivity.
Qed.

(* ------------------------------------------------------------------ *)
(** ** The price update of a clearing round *)

(** The first pass of the loop stops at once when the first bid offers less
    than the first ask asks. *)
Lemma matchLoop_crossed (fuel : nat) (st : book) p q a b :
  asksCom st !! asksIndex st = Some p -> bidsCom st !! bidsIndex st = Some q ->
  askHeap st !! p = Some a -> bidHeap st !! q = Some b ->
  buyFor (offeredBid b) < sellFor (offeredAsk a) ->
  matchLoop (S fuel) st = Ok st.
Proof.
  intros Hp Hq Ha Hb Hlt. simpl. unfold matchStep, index, derefAsk, derefBid.
  rewrite Hp, Hq. cbn. rewrite Ha, Hb. cbn.
  assert (Qltb (buyFor (offeredBid b)) (sellFor (offeredAsk a)) = true) as ->.
  { unfold Qltb. apply negb_true_iff, Qle_bool_false. exact Hlt. }
  reflexivity.
Qed.

(** C6: after a clearing round, the commodity's [averagePrice] is
    [runningTotal / totalTransactions] when [totalTransactions <> 0] and is the
    old value otherwise; no other commodity's price changes; and when the ask
    book or the bid book is empty, or every bid offers less than every ask
    asks, the registry is left exactly as it was. *)
Theorem clearCommodity_price_update (market : registry) (com : cptr)
    (aheap : gmap nat asks) (bheap : gmap nat bids) (asksCom0 bidsCom0 : list nat)
    (market' : registry) (st : book) :
  clearCommodity market com aheap bheap asksCom0 bidsCom0 = Ok (market', st) ->
  market' !! com = (if (totalTransactions st =? 0)%Z then market !! com
                    else Some (runningTotal st / inject_Z (totalTransactions st))) /\
  (forall c, c <> com -> market' !! c = market !! c) /\
  (asksCom0 = [] \/ bidsCom0 = [] \/
   (forall p q a b, p ∈ asksCom0 -> q ∈ bidsCom0 -> aheap !! p = Some a ->
      bheap !! q = Some b -> buyFor (offeredBid b) < sellFor (offeredAsk a)) ->
   market' = market).
Proof.
  intros H. unfold clearCommodity in H.
  assert (Hfin : forall st1,
    (if (totalTransactions st1 =? 0)%Z then Ok (market, st1)
     else Ok (<[com := runningTotal st1 / inject_Z (totalTransactions st1)]> market, st1))
      = Ok (market', st) ->
    st = st1 /\
    market' = (if (totalTransactions st1 =? 0)%Z then market
               else <[com := runningTotal st1 / inject_Z (totalTransactions st1)]> market)).
  { intros st1 E. destruct (totalTransactions st1 =? 0)%Z; injection E as <- <-; auto. }
  assert (Hprice : forall st1,
    market' = (if (totalTransactions st1 =? 0)%Z then market
               else <[com := runningTotal st1 / inject_Z (totalTransactions st1)]> market) ->
    st = st1 ->
    market' !! com = (if (totalTransactions st =? 0)%Z then market !! com
                      else Some (runningTotal st / inject_Z (totalTransactions st))) /\
    (forall c, c <> com -> market' !! c = market !! c)).
  { intros st1 -> ->. destruct (totalTransactions st1 =? 0)%Z.
    - auto.
    - split; [apply lookup_insert_eq|]. intros c Hc. by apply lookup_insert_ne. }
  destruct ((0 <? length asksCom0)%nat && (0 <? length bidsCom0)%nat) eqn:Hne.
  - destruct (matchLoop _ _) as [st1|why] eqn:Hm; cbn in H; [|discriminate].
    destruct (Hfin st1 H) as [Hst Hm'].
    destruct (Hprice st1 Hm' Hst) as [H1 H2].
    split; [exact H1|]. split; [exact H2|].
    intros Hcase. apply andb_true_iff in Hne as [Ha Hb].
    apply Nat.ltb_lt in Ha, Hb.
    destruct asksCom0 as [|p asr]; [simpl in Ha; lia|].
    destruct bidsCom0 as [|q bsr]; [simpl in Hb; lia|].
    destruct Hcase as [Hc|[Hc|Hcross]]; [discriminate|discriminate|].
    destruct (aheap !! p) as [a|] eqn:Hpa.
    2:{ simpl in Hm. unfold matchStep, index, derefAsk in Hm. cbn in Hm.
        rewrite Hpa in Hm. discriminate. }
    destruct (bheap !! q) as [b|] eqn:Hqb.
    2:{ simpl in Hm. unfold matchStep, index, derefAsk, derefBid in Hm. cbn in Hm.
        rewrite Hpa in Hm. cbn in Hm. rewrite Hqb in Hm. discriminate. }
    simpl length in Hm. rewrite Nat.add_succ_l in Hm.
    rewrite (matchLoop_crossed _ _ p q a b) in Hm; try reflexivity; try assumption.
    + injection Hm as <-. subst st. rewrite Hm'. reflexivity.
    + apply (Hcross p q); [constructor|constructor|assumption|assumption].
  - cbn in H. injection H as <- <-.
    split; [reflexivity|]. split; [reflexivity|]. reflexivity.
Qed.

Lemma clearCommodity_price_update_witness :
  exists market' st,
    clearCommodity scenarioAMarket "X" scenarioAAsks scenarioABids [0%nat] [0%nat]
      = Ok (market', st) /\
    (market' !! "X" = (if (totalTransactions st =? 0)%Z then scenarioAMarket !! "X"
                       else Some (runningTotal st / inject_Z (totalTransactions st))) /\
     (forall c, c <> "X" -> market' !! c = scenarioAMarket !! c) /\
     ([0%nat] = [] \/ [0%nat] = [] \/
      (forall p q a b, p ∈ [0%nat] -> q ∈ [0%nat] -> scenarioAAsks !! p = Some a ->
         scenarioABids !! q = Some b -> buyFor (offeredBid b) < sellFor (offeredAsk a)) ->
      market' = scenarioAMarket)).
Proof.
  do 2 eexists. split; [vm_compute; reflexivity|].
  apply clearCommodity_price_update. vm_compute. reflexivity.
Defined.

(* ------------------------------------------------------------------ *)
(** ** Idle cycles *)

Section Sorting.
Context {A : Type} (less : A -> A -> result bool) (P : A -> Prop).
Hypothesis Hless : forall x y, P x -> P y -> exists b, less x y = Ok b.

Lemma sinkDown_forall (j : nat) (l : list A) :
  Forall P l -> (j < length l)%nat ->
  exists l', sinkDown less j l = Ok l' /\ Forall P l' /\ length l' = length l.
Proof.
  revert l. induction j as [|j IH]; intros l HP Hj; simpl.
  - eauto.
  - destruct (lookup_lt_is_Some_2 l (S j) Hj) as [x Hx].
    destruct (lookup_lt_is_Some_2 l j ltac:(lia)) as [y Hy].
    unfold index. rewrite Hx, Hy. cbn.
    destruct (Hless x y) as [b Hb]; [eapply Forall_lookup_1; eauto..|].
    rewrite Hb. cbn. destruct b.
    + destruct (IH (<[j:=x]> (<[S j:=y]> l))) as (l' & H1 & H2 & H3).
      * apply Forall_insert; [apply Forall_insert; [exact HP|]|];
          eapply Forall_lookup_1; eassumption.
      * rewrite !length_insert. lia.
      * exists l'. rewrite H1, H3, !length_insert. auto.
    + eauto.
Qed.

Lemma foldl_sinkDown_forall (is : list nat) (l : list A) :
  Forall P l -> (forall i, In i is -> (i < length l)%nat) ->
  exists l', foldlM (fun l i => sinkDown less i l) l is = Ok l' /\
             Forall P l' /\ length l' = length l.
Proof.
  revert l. induction is as [|i is IH]; intros l HP Hi; simpl; [eauto|].
  destruct (sinkDown_forall i l HP (Hi i (or_introl eq_refl))) as (l1 & E & H1 & H2).
  rewrite E. cbn.
  destruct (IH l1 H1) as (l' & E' & H1' & H2').
  - intros k Hk. rewrite H2. apply Hi. right. exact Hk.
  - exists l'. rewrite H2', H2. auto.
Qed.

Lemma insertionSort_forall (l : list A) :
  Forall P l -> exists l', insertionSort less l = Ok l' /\ Forall P l'.
Proof.
  intros HP. unfold insertionSort.
  destruct (foldl_sinkDown_forall (seq 1 (length l - 1)) l HP) as (l' & E & H & _).
  - intros i Hi. apply in_seq in Hi. lia.
  - eauto.
Qed.
End Sorting.

Lemma catalystCost_ok (price : cptr -> Q) (cons : list Q) (cs : list commoditySet) :
  forall idx acc, (idx + length cs <= length cons)%nat ->
  exists v, catalystCost price cons idx cs acc = Ok v.
Proof.
  induction cs as [|c cs IH]; intros idx acc Hlen; simpl; [eauto|].
  destruct (lookup_lt_is_Some_2 cons idx ltac:(simpl in Hlen; lia)) as [p Hp].
  unfold index. rewrite Hp. cbn. apply IH. simpl in Hlen. lia.
Qed.

Lemma byMarketValueLess_ok (market : registry) (x y : productionMethod) :
  catalystsPriced x -> catalystsPriced y -> exists b, byMarketValueLess market x y = Ok b.
Proof.
  unfold catalystsPriced. intros Hx Hy. unfold byMarketValueLess, getMarketValue, methodValue.
  destruct (catalystCost_ok (averagePrice market) (consumption x) (catalysts x) 0
              (fold_left (fun v i => v - inject_Z (quantity i) * averagePrice market (item i))
                 (inputs x)
                 (fold_left (fun v o => v + inject_Z (quantity o) * averagePrice market (item o))
                    (outputs x) 0)) ltac:(lia)) as [vx Ex].
  destruct (catalystCost_ok (averagePrice market) (consumption y) (catalysts y) 0
              (fold_left (fun v i => v - inject_Z (quantity i) * averagePrice market (item i))
                 (inputs y)
                 (fold_left (fun v o => v + inject_Z (quantity o) * averagePrice market (item o))
                    (outputs y) 0)) ltac:(lia)) as [vy Ey].
  rewrite Ex. cbn. rewrite Ey. cbn. eauto.
Qed.

Lemma firstExecutable_none (inv : gmap cptr Z) (ms : list productionMethod) :
  Forall (fun m => executable inv m = false) ms -> firstExecutable inv ms = None.
Proof.
  induction 1 as [|m ms Hm _ IH]; simpl; [reflexivity|]. rewrite Hm, IH. reflexivity.
Qed.

(** With no executable method, [performProduction] reorders the methods and
    deducts the penalty, and nothing else. *)
Lemma performProduction_idle (rng : nat -> Q) (market : registry)
    (agent : traderAgent) (n : nat) :
  Forall (fun m => catalystsPriced m /\ executable (inventory agent) m = false)
    (methods (job agent)) ->
  exists ms,
    performProduction rng market agent n =
      Ok (set_funds (set_job agent (mkProductionSet ms (penalty (job agent))))
            (funds agent - penalty (job agent)), n) /\
    Forall (fun m => catalystsPriced m /\ executable (inventory agent) m = false) ms.
Proof.
  intros HF.
  destruct (insertionSort_forall (byMarketValueLess market)
              (fun m => catalystsPriced m /\ executable (inventory agent) m = false))
    with (l := methods (job agent)) as (ms & Hs & Hms); [|exact HF|].
  { intros x y [Hx _] [Hy _]. apply byMarketValueLess_ok; assumption. }
  exists ms. split; [|exact Hms].
  unfold performProduction. rewrite Hs. cbn.
  rewrite firstExecutable_none; [reflexivity|].
  eapply Forall_impl; [exact Hms|]. intros m [_ Hm]. exact Hm.
Qed.

Lemma foldlOpt_forall {A B} (f : A -> B -> option A) (Q : B -> Prop) (P : A -> Prop) :
  (forall a x a', P a -> Q x -> f a x = Some a' -> P a') ->
  forall l a a', Forall Q l -> P a -> foldlOpt f a l = Some a' -> P a'.
Proof.
  intros Hstep l. induction l as [|x l IH]; intros a a' HQ Ha H; simpl in H.
  - injection H as <-. exact Ha.
  - inversion HQ as [|? ? Hx HQ']; subst.
    destruct (f a x) as [a1|] eqn:E; simpl in H; [|discriminate].
    apply (IH a1); [exact HQ'|eapply Hstep; eassumption|exact H].
Qed.

(** With no entry accepted, [agentUpdate] keeps funds, inventory and job. *)
Lemma agentUpdate_rejected (fuel : nat) (market : registry) (agent : traderAgent)
    (offers : list asks * list bids) (agent' : traderAgent) :
  noneAccepted offers ->
  agentUpdate fuel market agent (fst offers) (snd offers) = Some agent' ->
  funds agent' = funds agent /\ inventory agent' = inventory agent /\ job agent' = job agent.
Proof.
  intros [Ha Hb] H. unfold agentUpdate in H.
  set (P := fun a : traderAgent =>
              funds a = funds agent /\ inventory a = inventory agent /\ job a = job agent).
  assert (Hask : forall a x a', P a -> askNumberAccepted x = 0%Z ->
                   askEntryUpdate fuel market a x = Some a' -> P a').
  { intros a x a' (Hf & Hi & Hj) Hx E.
    destruct (askEntryUpdate_shape _ _ _ _ _ E) as (h & l & _ & _ & Hj' & Hfr).
    destruct Hfr as [Hf' Hi']; [lia|].
    unfold P. rewrite Hf', Hi', Hj'. auto. }
  assert (Hbid : forall a x a', P a -> bidNumberAccepted x = 0%Z ->
                   bidEntryUpdate fuel market a x = Some a' -> P a').
  { intros a x a' (Hf & Hi & Hj) Hx E.
    destruct (bidEntryUpdate_shape _ _ _ _ _ E) as (h & l & _ & _ & Hj' & Hfr).
    destruct Hfr as [Hf' Hi']; [lia|].
    unfold P. rewrite Hf', Hi', Hj'. auto. }
  destruct (foldlOpt (askEntryUpdate fuel market) agent (fst offers)) as [a1|] eqn:E1;
    simpl in H; [|discriminate].
  assert (P a1) as Ha1.
  { exact (foldlOpt_forall _ _ P Hask (fst offers) agent a1 Ha
             (conj eq_refl (conj eq_refl eq_refl)) E1). }
  exact (foldlOpt_forall _ _ P Hbid (snd offers) a1 agent' Hb Ha1 H).
Qed.

(** [j] idle cycles starting at cycle [k] with [funds = 2 j] and penalty 2:
    the agent dies at the end of cycle [k + j] with funds 0, unless a belief
    correction of one of these cycles does not finish. *)
Lemma agentLoop_idle (fuel : nat) (rng : nat -> Q) (markets : nat -> registry)
    (env : nat -> list asks * list bids) :
  forall (j budget k : nat) (agent : traderAgent) (n : nat),
  (1 <= j)%nat -> (j <= budget)%nat ->
  Forall (fun m => catalystsPriced m /\ executable (inventory agent) m = false)
    (methods (job agent)) ->
  penalty (job agent) == 2 ->
  funds agent == 2 * inject_Z (Z.of_nat j) ->
  (forall i, (k <= i < k + j)%nat -> noneAccepted (env i)) ->
  (exists a', agentLoop fuel rng markets env budget k agent n = Died a' (k + j) /\
              funds a' == 0) \/
  (exists i, (k <= i < k + j)%nat /\ agentLoop fuel rng markets env budget k agent n = Hung i).
Proof.
  induction j as [|j IH]; intros budget k agent n Hj Hb HF Hpen Hfunds Henv; [lia|].
  destruct budget as [|budget]; [lia|].
  destruct (performProduction_idle rng (markets k) agent n HF) as (ms & Hp & Hms).
  simpl. rewrite Hp.
  destruct (agentUpdate fuel (markets k) _ (fst (env k)) (snd (env k))) as [agent2|] eqn:Hu.
  2:{ right. exists k. split; [lia|reflexivity]. }
  destruct (agentUpdate_rejected _ _ _ (env k) _ (Henv k ltac:(lia)) Hu) as (Hf2 & Hi2 & Hj2).
  cbn in Hf2, Hi2, Hj2.
  rewrite Nat2Z.inj_succ, <- Z.add_1_r, inject_Z_plus in Hfunds.
  change (inject_Z 1) with 1 in Hfunds.
  destruct j as [|j].
  - left. change (inject_Z (Z.of_nat 0)) with 0 in Hfunds.
    assert (Qle_bool (funds agent2) 0 = true) as ->.
    { apply Qle_bool_iff. rewrite Hf2. lra. }
    exists agent2. split; [f_equal; lia|]. rewrite Hf2. lra.
  - assert (Hnn : 0 <= inject_Z (Z.of_nat j)).
    { change 0 with (inject_Z 0). rewrite <- Zle_Qle. lia. }
    rewrite Nat2Z.inj_succ, <- Z.add_1_r, inject_Z_plus in Hfunds.
    change (inject_Z 1) with 1 in Hfunds.
    assert (Qle_bool (funds agent2) 0 = false) as ->.
    { apply Qle_bool_false. rewrite Hf2. lra. }
    destruct (IH budget (S k) agent2 n) as [(a' & Ha' & Hz)|(i & Hi & Hh)].
    + lia.
    + lia.
    + rewrite Hi2, Hj2. exact Hms.
    + rewrite Hj2. exact Hpen.
    + rewrite Hf2, Nat2Z.inj_succ, <- Z.add_1_r, inject_Z_plus.
      change (inject_Z 1) with 1. lra.
    + intros i Hi. apply Henv. lia.
    + left. exists a'. split; [|exact Hz].
      rewrite Ha'. f_equal. lia.
    + right. exists i. split; [lia|exact Hh].
Qed.

(** C8: an agent with funds 10 and idle penalty 2, for which no method is
    executable and no offer is accepted in cycles 0..4, is reported dead at the
    end of the fifth cycle with funds exactly 0. The only other outcome is that
    a belief correction of one of these cycles does not finish (the correction
    loop of [agentUpdate] can run forever, see [correctLow_never_ends]);
    in particular the agent is not reported dead earlier, nor alive after. *)
Theorem agentLoop_idle_dies_fifth (fuel : nat) (rng : nat -> Q)
    (markets : nat -> registry) (env : nat -> list asks * list bids)
    (budget : nat) (agent : traderAgent) (n : nat) :
  funds agent == 10 -> penalty (job agent) == 2 ->
  Forall (fun m => catalystsPriced m /\ executable (inventory agent) m = false)
    (methods (job agent)) ->
  (forall k, (k < 5)%nat -> noneAccepted (env k)) ->
  (5 <= budget)%nat ->
  (exists a', agentLoop fuel rng markets env budget 0 agent n = Died a' 5 /\ funds a' == 0) \/
  (exists k, (k < 5)%nat /\ agentLoop fuel rng markets env budget 0 agent n = Hung k).
Proof.
  intros Hf Hp HF Henv Hb.
  destruct (agentLoop_idle fuel rng markets env 5 budget 0 agent n)
    as [(a' & Ha & Hz)|(k & Hk & Hh)].
  - lia.
  - exact Hb.
  - exact HF.
  - exact Hp.
  - rewrite Hf. reflexivity.
  - intros i Hi. apply Henv. lia.
  - left. exists a'. split; assumption.
  - right. exists k. split; [lia|exact Hh].
Qed.

Lemma agentLoop_idle_dies_fifth_witness :
  funds idleFarmer == 10 /\ penalty (job idleFarmer) == 2 /\
  Forall (fun m => catalystsPriced m /\ executable (inventory idleFarmer) m = false)
    (methods (job idleFarmer)) /\
  (forall k, (k < 5)%nat -> noneAccepted (noOffers k)) /\ (5 <= 5)%nat /\
  ((exists a', agentLoop 10 (fun _ => 0) (fun _ => initialMarket) noOffers 5 0
                 idleFarmer 0 = Died a' 5 /\ funds a' == 0) \/
   (exists k, (k < 5)%nat /\
      agentLoop 10 (fun _ => 0) (fun _ => initialMarket) noOffers 5 0 idleFarmer 0 = Hung k)).
Proof.
  assert (HF : Forall (fun m => catalystsPriced m /\ executable (inventory idleFarmer) m = false)
                 (methods (job idleFarmer))).
  { constructor; [split; [unfold catalystsPriced; simpl; lia|reflexivity]|].
    constructor; [split; [unfold catalystsPriced; simpl; lia|reflexivity]|].
    constructor. }
  assert (Henv : forall k, (k < 5)%nat -> noneAccepted (noOffers k)).
  { intros k _. split; constructor. }
  split; [reflexivity|]. split; [reflexivity|]. split; [exact HF|].
  split; [exact Henv|]. split; [lia|].
  apply agentLoop_idle_dies_fifth; [reflexivity|reflexivity|exact HF|exact Henv|lia].
Defined.

(** Scenario D run: the idle farmer is reported dead after five cycles. *)
Lemma idleFarmer_dies_fifth :
  exists a', agentLoop 10 (fun _ => 0) (fun _ => initialMarket) noOffers 8 0 idleFarmer 0
               = Died a' 5 /\ funds a' == 0.
Proof. eexists. split; [vm_compute; reflexivity|]. vm_compute. reflexivity. Qed.

(* ================================================================== *)
(** * Further properties of the code *)

(** ** Requirement maps *)

Lemma cQMapConcat_lookup (mA mB : gmap cptr Z) (k : cptr) :
  cQMapConcat mA mB !! k =
    match mA !! k, mB !! k with
    | Some x, Some v => Some (x + v)%Z
    | Some x, None => Some x
    | None, o => o
    end.
Proof.
  unfold cQMapConcat. revert k.
  apply (map_fold_weak_ind (fun r m => forall k, r !! k =
    match mA !! k, m !! k with
    | Some x, Some v => Some (x + v)%Z
    | Some x, None => Some x
    | None, o => o
    end)).
  - intros k. rewrite lookup_empty. destruct (mA !! k); reflexivity.
  - intros i x m r Hi IH k.
    destruct (decide (k = i)) as [->|Hne].
    + specialize (IH i). rewrite Hi in IH. rewrite lookup_insert_eq.
      destruct (r !! i) eqn:Er; rewrite lookup_insert_eq;
        destruct (mA !! i); congruence.
    + rewrite lookup_insert_ne by congruence.
      destruct (r !! i); rewrite lookup_insert_ne by congruence; apply IH.
Qed.

Lemma cQMapConcat_lookupZ (mA mB : gmap cptr Z) (k : cptr) :
  lookupZ (cQMapConcat mA mB) k = (lookupZ mA k + lookupZ mB k)%Z.
Proof.
  unfold lookupZ. rewrite cQMapConcat_lookup.
  destruct (mA !! k), (mB !! k); simpl; lia.
Qed.

(** [cQMapConcat(mA, mB)] returns the union of the two maps in which a key
    present in both carries the sum of its two quantities; counted with a
    missing key as 0, every quantity of the result is the sum of the two. *)
Theorem cQMapConcat_spec (mA mB : gmap cptr Z) (k : cptr) :
  (cQMapConcat mA mB !! k =
     match mA !! k, mB !! k with
     | Some x, Some v => Some (x + v)%Z
     | Some x, None => Some x
     | None, o => o
     end) /\
  lookupZ (cQMapConcat mA mB) k = (lookupZ mA k + lookupZ mB k)%Z.
Proof. split; [apply cQMapConcat_lookup|apply cQMapConcat_lookupZ]. Qed.

Lemma fold_addNeed_lookupZ (l : list commoditySet) :
  forall (m : gmap cptr Z) c, lookupZ (fold_left addNeed l m) c = (lookupZ m c + qtyOf c l)%Z.
Proof.
  induction l as [|cs l IH]; intros m c; simpl; [lia|].
  rewrite IH. unfold addNeed, lookupZ. destruct (decide (item cs = c)) as [<-|Hne].
  - rewrite lookup_insert_eq. simpl. lia.
  - rewrite lookup_insert_ne by exact Hne. lia.
Qed.

Lemma fold_addNeed_dom (l : list commoditySet) :
  forall (m : gmap cptr Z) c,
    is_Some (fold_left addNeed l m !! c) <-> is_Some (m !! c) \/ Exists (fun cs => item cs = c) l.
Proof.
  induction l as [|cs l IH]; intros m c; simpl.
  - split; [auto|]. intros [H|H]; [exact H|inversion H].
  - rewrite IH. unfold addNeed. rewrite Exists_cons.
    destruct (decide (item cs = c)) as [<-|Hne].
    + rewrite lookup_insert_eq. split; [auto|]. intros _. left. eauto.
    + rewrite lookup_insert_ne by exact Hne. split; intros [H|H]; auto.
      destruct H as [H|H]; [congruence|auto].
Qed.

(** [gatherRequirements(pm)] maps each commodity to its total quantity among
    the inputs and catalysts of [pm], and has a key exactly for the
    commodities that occur there. *)
Lemma gatherRequirements_spec (pm : productionMethod) (c : cptr) :
  lookupZ (gatherRequirements pm) c = (qtyOf c (inputs pm) + qtyOf c (catalysts pm))%Z /\
  (is_Some (gatherRequirements pm !! c) <->
   Exists (fun cs => item cs = c) (inputs pm) \/ Exists (fun cs => item cs = c) (catalysts pm)).
Proof.
  unfold gatherRequirements. split.
  - rewrite !fold_addNeed_lookupZ. unfold lookupZ. rewrite lookup_empty. simpl. lia.
  - rewrite !fold_addNeed_dom, lookup_empty.
    split.
    + intros [[[? H]|H]|H]; [discriminate|left; exact H|right; exact H].
    + intros [H|H]; [left; right; exact H|right; exact H].
Qed.

Lemma fold_gatherAll (c : cptr) (ms : list productionMethod) :
  forall m0 : gmap cptr Z,
  let r := fold_left (fun needs m => fold_left addNeed (catalysts m)
                                       (fold_left addNeed (inputs m) needs)) ms m0 in
  lookupZ r c = (lookupZ m0 c + fold_right (fun m acc =>
                   qtyOf c (inputs m) + qtyOf c (catalysts m) + acc) 0 ms)%Z /\
  (is_Some (r !! c) <-> is_Some (m0 !! c) \/ neededBy ms c).
Proof.
  induction ms as [|m ms IH]; intros m0; simpl.
  - split; [lia|]. split; [auto|]. intros [H|H]; [exact H|inversion H].
  - destruct (IH (fold_left addNeed (catalysts m) (fold_left addNeed (inputs m) m0)))
      as [IH1 IH2].
    split.
    + rewrite IH1, !fold_addNeed_lookupZ. lia.
    + rewrite IH2, !fold_addNeed_dom. unfold neededBy. rewrite Exists_cons.
      split.
      * intros [[[H|H]|H]|H]; auto.
      * intros [H|[[H|H]|H]]; auto.
Qed.

Lemma gatherAllRequirements_dom (agent : traderAgent) (c : cptr) :
  is_Some (gatherAllRequirements agent !! c) <-> neededBy (methods (job agent)) c.
Proof.
  destruct (fold_gatherAll c (methods (job agent)) ∅) as [_ H2].
  unfold gatherAllRequirements. rewrite H2, lookup_empty.
  split; [intros [[? H]|H]; [discriminate|exact H]|auto].
Qed.

(** [gatherAllRequirements(agent)] adds up, per commodity, the input and
    catalyst quantities of all the job's methods, and has a key exactly for
    the commodities some method needs. *)
Lemma gatherAllRequirements_spec (agent : traderAgent) (c : cptr) :
  lookupZ (gatherAllRequirements agent) c =
    fold_right (fun m acc => qtyOf c (inputs m) + qtyOf c (catalysts m) + acc)%Z 0%Z
      (methods (job agent)) /\
  (is_Some (gatherAllRequirements agent !! c) <-> neededBy (methods (job agent)) c).
Proof.
  destruct (fold_gatherAll c (methods (job agent)) ∅) as [H1 H2].
  unfold gatherAllRequirements. split.
  - rewrite H1. unfold lookupZ. rewrite lookup_empty. simpl. lia.
  - apply gatherAllRequirements_dom.
Qed.

Lemma list_fmap_is_map {A B} (f : A -> B) (l : list A) : f <$> l = List.map f l.
Proof. induction l as [|x l IH]; [reflexivity|]. simpl. f_equal; auto. Qed.

Lemma NoDup_map_fst_filter {A B} (f : A * B -> bool) (l : list (A * B)) :
  NoDup (List.map fst l) -> NoDup (List.map fst (List.filter f l)).
Proof.
  induction l as [|[a b] l IH]; simpl; [auto|].
  intros Hnd. apply NoDup_cons in Hnd as [Hn Hnd].
  destruct (f (a, b)); simpl; [|auto].
  apply NoDup_cons. split; [|auto].
  rewrite list_elem_of_In. intros Hin. apply Hn. rewrite list_elem_of_In.
  apply in_map_iff in Hin as [[a' b'] [Ha Hin]].
  apply filter_In in Hin as [Hin _]. apply in_map_iff. exists (a', b'). auto.
Qed.

(** [generateAsks(&agent)] offers exactly the held commodities that no method
    of the job needs: one ask each, of the whole held amount, with quantity 1,
    nothing accepted yet, at the belief midpoint. *)
Lemma generateAsks_spec (agent : traderAgent) :
  (forall a, In a (generateAsks agent) <->
     exists com num, inventory agent !! com = Some num /\
       ~ neededBy (methods (job agent)) com /\
       a = mkAsks (mkAsk 0 com 1 (beliefMid agent com)) num 0) /\
  NoDup (List.map (fun a => ask_item (offeredAsk a)) (generateAsks agent)).
Proof.
  split.
  - intros a. unfold generateAsks. rewrite in_map_iff. split.
    + intros [[com num] [<- Hin]]. apply filter_In in Hin as [Hin Hf].
      apply list_elem_of_In, elem_of_map_to_list in Hin.
      exists com, num. split; [exact Hin|]. split; [|reflexivity].
      intros Hn. apply (gatherAllRequirements_dom agent com) in Hn as [x Hx].
      simpl in Hf. rewrite Hx in Hf. discriminate.
    + intros (com & num & Hc & Hn & ->). exists (com, num). split; [reflexivity|].
      apply filter_In. split.
      * apply list_elem_of_In, elem_of_map_to_list. exact Hc.
      * simpl. destruct (gatherAllRequirements agent !! com) eqn:E; [|reflexivity].
        exfalso. apply Hn, (gatherAllRequirements_dom agent com). rewrite E. eauto.
  - unfold generateAsks. rewrite map_map.
    rewrite (map_ext _ fst); [|intros [com num]; reflexivity].
    apply NoDup_map_fst_filter. rewrite <- list_fmap_is_map.
    apply NoDup_fst_map_to_list.
Qed.

(** ** [generateBids] *)

(** Subtracting held inventory from the requirements: only keys already
    required are touched, and none is added. *)
Lemma trim_lookup (reqs inv : gmap cptr Z) (c : cptr) :
  map_fold (fun com num r => match r !! com with
                             | Some x => <[com := (x - num)%Z]> r
                             | None => r
                             end) reqs inv !! c =
  match reqs !! c with Some x => Some (x - lookupZ inv c)%Z | None => None end.
Proof.
  revert c.
  apply (map_fold_weak_ind (fun r m => forall c, r !! c =
    match reqs !! c with Some x => Some (x - lookupZ m c)%Z | None => None end)).
  - intros c. unfold lookupZ. rewrite lookup_empty. simpl.
    destruct (reqs !! c); [f_equal; lia|reflexivity].
  - intros i x m r Hi IH c.
    assert (Hz : lookupZ m i = 0%Z) by (unfold lookupZ; rewrite Hi; reflexivity).
    destruct (decide (c = i)) as [->|Hne].
    + specialize (IH i). rewrite Hz in IH.
      assert (Hx : lookupZ (<[i:=x]> m) i = x)
        by (unfold lookupZ; rewrite lookup_insert_eq; reflexivity).
      rewrite Hx.
      destruct (reqs !! i) as [y|] eqn:Er; rewrite IH.
      * rewrite lookup_insert_eq. f_equal. lia.
      * exact IH.
    + assert (Hl : lookupZ (<[i:=x]> m) c = lookupZ m c).
      { unfold lookupZ. rewrite lookup_insert_ne by congruence. reflexivity. }
      rewrite Hl. destruct (r !! i); [rewrite lookup_insert_ne by congruence|]; apply IH.
Qed.

(** [generateBids(&agent)] bids for exactly the commodities of the
    requirement map, one bid each, for the requirement minus the held
    amount (not clamped: it is zero or negative when the agent already holds
    enough), with quantity 1, nothing accepted, at the belief midpoint. *)
Lemma generateBids_spec (agent : traderAgent) (reqs : gmap cptr Z) :
  bidRequirements agent = Ok reqs ->
  exists bs, generateBids agent = Ok bs /\
    (forall b, In b bs <->
       exists com req, reqs !! com = Some req /\
         b = mkBids (mkBid 0 com 1 (beliefMid agent com))
               (req - lookupZ (inventory agent) com)%Z 0) /\
    NoDup (List.map (fun b => bid_item (offeredBid b)) bs).
Proof.
  intros Hr. unfold generateBids. rewrite Hr. cbn. eexists. split; [reflexivity|].
  split.
  - intros b. rewrite in_map_iff. split.
    + intros [[com num] [<- Hin]].
      apply list_elem_of_In, elem_of_map_to_list in Hin. rewrite trim_lookup in Hin.
      destruct (reqs !! com) as [req|] eqn:E; [|discriminate].
      injection Hin as <-. exists com, req. auto.
    + intros (com & req & Hc & ->). exists (com, (req - lookupZ (inventory agent) com)%Z).
      split; [reflexivity|]. apply list_elem_of_In, elem_of_map_to_list.
      rewrite trim_lookup, Hc. reflexivity.
  - rewrite map_map. rewrite (map_ext _ fst); [|intros [com num]; reflexivity].
    rewrite <- list_fmap_is_map. apply NoDup_fst_map_to_list.
Qed.

Lemma generateBids_spec_witness :
  exists reqs, bidRequirements sampleFarmer = Ok reqs /\
  exists bs, generateBids sampleFarmer = Ok bs /\
    (forall b, In b bs <->
       exists com req, reqs !! com = Some req /\
         b = mkBids (mkBid 0 com 1 (beliefMid sampleFarmer com))
               (req - lookupZ (inventory sampleFarmer) com)%Z 0) /\
    NoDup (List.map (fun b => bid_item (offeredBid b)) bs).
Proof.
  eexists. split; [reflexivity|]. apply generateBids_spec. reflexivity.
Defined.

(** ** [performProduction] *)

Lemma fold_addInv_neg_lookupZ (l : list commoditySet) :
  forall (inv : gmap cptr Z) c,
  lookupZ (fold_left (fun inv i => addInv inv (item i) (- quantity i)%Z) l inv) c =
  (lookupZ inv c - qtyOf c l)%Z.
Proof.
  induction l as [|cs l IH]; intros inv c; simpl; [lia|].
  rewrite IH. unfold addInv, lookupZ. destruct (decide (item cs = c)) as [<-|Hne].
  - rewrite lookup_insert_eq. simpl. lia.
  - rewrite lookup_insert_ne by exact Hne. lia.
Qed.

Lemma fold_addInv_pos_lookupZ (l : list commoditySet) :
  forall (inv : gmap cptr Z) c,
  lookupZ (fold_left (fun inv o => addInv inv (item o) (quantity o)) l inv) c =
  (lookupZ inv c + qtyOf c l)%Z.
Proof.
  induction l as [|cs l IH]; intros inv c; simpl; [lia|].
  rewrite IH. unfold addInv, lookupZ. destruct (decide (item cs = c)) as [<-|Hne].
  - rewrite lookup_insert_eq. simpl. lia.
  - rewrite lookup_insert_ne by exact Hne. lia.
Qed.

Lemma consumeCatalyst_bounds (rng : nat -> Q) (cons : list Q) (ci : nat) (c : cptr) (k : nat) :
  forall (inv inv' : gmap cptr Z) n n',
  consumeCatalyst rng cons ci c k inv n = Ok (inv', n') ->
  forall d, (lookupZ inv d - (if decide (c = d) then Z.of_nat k else 0) <= lookupZ inv' d <=
             lookupZ inv d)%Z.
Proof.
  induction k as [|k IH]; intros inv inv' n n' H d; simpl in H.
  - injection H as <- <-. destruct (decide (c = d)); lia.
  - unfold index in H. destruct (cons !! ci) as [p|]; cbn in H; [|discriminate].
    specialize (IH _ _ _ _ H d).
    destruct (Qltb (rng n) p).
    + unfold addInv, lookupZ in IH |- *. destruct (decide (c = d)) as [<-|Hne].
      * rewrite lookup_insert_eq in IH. simpl in IH. lia.
      * rewrite lookup_insert_ne in IH by exact Hne. lia.
    + destruct (decide (c = d)); lia.
Qed.

Lemma consumeCatalysts_bounds (rng : nat -> Q) (cons : list Q) (cs : list commoditySet) :
  Forall (fun x => (0 <= quantity x)%Z) cs ->
  forall ci (inv inv' : gmap cptr Z) n n',
  consumeCatalysts rng cons ci cs inv n = Ok (inv', n') ->
  forall d, (lookupZ inv d - qtyOf d cs <= lookupZ inv' d <= lookupZ inv d)%Z.
Proof.
  induction 1 as [|x cs Hx Hcs IH]; intros ci inv inv' n n' H d; simpl in H.
  - injection H as <- <-. simpl. lia.
  - destruct (consumeCatalyst rng cons ci (item x) (Z.to_nat (quantity x)) inv n)
      as [[inv1 n1]|] eqn:E; cbn in H; [|discriminate].
    pose proof (consumeCatalyst_bounds _ _ _ _ _ _ _ _ _ E d) as B1.
    pose proof (IH _ _ _ _ _ H d) as B2. simpl.
    rewrite Z2Nat.id in B1 by exact Hx.
    destruct (decide (item x = d)); lia.
Qed.

(** One run of a method: the inputs are removed, between none and all of the
    catalysts are consumed, and the outputs are added. *)
Lemma runMethod_bounds (rng : nat -> Q) (m : productionMethod) (inv inv' : gmap cptr Z)
    (n n' : nat) :
  Forall (fun x => (0 <= quantity x)%Z) (catalysts m) ->
  runMethod rng m inv n = Ok (inv', n') ->
  forall c,
    (lookupZ inv c - qtyOf c (inputs m) - qtyOf c (catalysts m) + qtyOf c (outputs m)
       <= lookupZ inv' c <=
     lookupZ inv c - qtyOf c (inputs m) + qtyOf c (outputs m))%Z.
Proof.
  intros Hq H c. unfold runMethod in H.
  destruct (consumeCatalysts rng (consumption m) 0 (catalysts m) _ n)
    as [[inv2 n2]|] eqn:E; cbn in H; [|discriminate].
  injection H as <- <-.
  pose proof (consumeCatalysts_bounds _ _ _ Hq _ _ _ _ _ E c) as B.
  rewrite fold_addInv_neg_lookupZ in B. rewrite fold_addInv_pos_lookupZ. lia.
Qed.

Lemma sinkDown_perm {A} (less : A -> A -> result bool) (j : nat) :
  forall (l l' : list A), sinkDown less j l = Ok l' -> l' ≡ₚ l.
Proof.
  induction j as [|j IH]; intros l l' H; simpl in H.
  - injection H as <-. reflexivity.
  - unfold index in H.
    destruct (l !! S j) as [x|] eqn:Hx; cbn in H; [|discriminate].
    destruct (l !! j) as [y|] eqn:Hy; cbn in H; [|discriminate].
    destruct (less x y) as [[|]|]; cbn in H; [|injection H as <-; reflexivity|discriminate].
    rewrite (IH _ _ H). apply Permutation_insert_swap; assumption.
Qed.

Lemma insertionSort_perm {A} (less : A -> A -> result bool) (l l' : list A) :
  insertionSort less l = Ok l' -> l' ≡ₚ l.
Proof.
  unfold insertionSort. generalize (seq 1 (length l - 1)) as is. intros is.
  revert l. induction is as [|i is IH]; intros l H; simpl in H.
  - injection H as <-. reflexivity.
  - destruct (sinkDown less i l) as [l1|] eqn:E; cbn in H; [|discriminate].
    rewrite (IH _ H). exact (sinkDown_perm _ _ _ _ E).
Qed.

Lemma firstExecutable_spec (inv : gmap cptr Z) (ms : list productionMethod) (i : nat) :
  firstExecutable inv ms = Some i ->
  exists m, ms !! i = Some m /\ executable inv m = true /\
    forall k m', (k < i)%nat -> ms !! k = Some m' -> executable inv m' = false.
Proof.
  revert i. induction ms as [|m ms IH]; intros i H; simpl in H; [discriminate|].
  destruct (executable inv m) eqn:Em.
  - injection H as <-. exists m. split; [reflexivity|]. split; [exact Em|]. intros; lia.
  - destruct (firstExecutable inv ms) as [i'|] eqn:E; simpl in H; [|discriminate].
    injection H as <-. destruct (IH i' eq_refl) as (m' & H1 & H2 & H3).
    exists m'. split; [exact H1|]. split; [exact H2|].
    intros [|k] m'' Hk Hl; simpl in Hl; [congruence|]. apply (H3 k); [lia|exact Hl].
Qed.

Lemma firstExecutable_None (inv : gmap cptr Z) (ms : list productionMethod) :
  firstExecutable inv ms = None -> Forall (fun m => executable inv m = false) ms.
Proof.
  induction ms as [|m ms IH]; simpl; intros H; [constructor|].
  destruct (executable inv m) eqn:Em; [discriminate|].
  destruct (firstExecutable inv ms); simpl in H; [discriminate|].
  constructor; [exact Em|apply IH; reflexivity].
Qed.

(** [performProduction] reorders the job's methods (a permutation) and keeps
    the agent's role, beliefs, risk aversion and penalty. Either no method is
    executable, and exactly the penalty is deducted with the inventory
    untouched; or the first executable method [m] of the new order runs: funds
    are unchanged, the inputs of [m] are removed, its outputs added, and
    between none and all of its catalysts consumed. *)
Theorem performProduction_effect (rng : nat -> Q) (market : registry)
    (agent agent' : traderAgent) (n n' : nat) :
  Forall (fun m => Forall (fun x => (0 <= quantity x)%Z) (catalysts m)) (methods (job agent)) ->
  performProduction rng market agent n = Ok (agent', n') ->
  role agent' = role agent /\ priceBelief agent' = priceBelief agent /\
  riskAversion agent' = riskAversion agent /\ penalty (job agent') = penalty (job agent) /\
  methods (job agent') ≡ₚ methods (job agent) /\
  ((Forall (fun m => executable (inventory agent) m = false) (methods (job agent)) /\
    funds agent' = funds agent - penalty (job agent) /\ inventory agent' = inventory agent) \/
   (exists i m, methods (job agent') !! i = Some m /\ executable (inventory agent) m = true /\
      (forall k m', (k < i)%nat -> methods (job agent') !! k = Some m' ->
                    executable (inventory agent) m' = false) /\
      funds agent' = funds agent /\
      forall c,
        (lookupZ (inventory agent) c - qtyOf c (inputs m) - qtyOf c (catalysts m)
           + qtyOf c (outputs m) <= lookupZ (inventory agent') c <=
         lookupZ (inventory agent) c - qtyOf c (inputs m) + qtyOf c (outputs m))%Z)).
Proof.
  intros Hq H. unfold performProduction in H.
  destruct (insertionSort (byMarketValueLess market) (methods (job agent))) as [ms|why] eqn:Es;
    cbn in H; [|discriminate].
  pose proof (insertionSort_perm _ _ _ Es) as Hp.
  destruct (firstExecutable (inventory agent) ms) as [i|] eqn:Ef; cbn in H.
  - unfold index in H. destruct (ms !! i) as [m|] eqn:Em; cbn in H; [|discriminate].
    destruct (runMethod rng m (inventory agent) n) as [[inv' n2]|] eqn:Er; cbn in H;
      [|discriminate].
    injection H as <- <-. cbn.
    do 4 (split; [reflexivity|]). split; [exact Hp|]. right.
    destruct (firstExecutable_spec _ _ _ Ef) as (m0 & Hm0 & Hx & Hbefore).
    rewrite Em in Hm0. injection Hm0 as <-.
    exists i, m. split; [exact Em|]. split; [exact Hx|]. split; [exact Hbefore|].
    split; [reflexivity|].
    apply (runMethod_bounds rng m _ _ n n2); [|exact Er].
    assert (Hin : In m (methods (job agent))).
    { apply (Permutation_in _ Hp). apply list_elem_of_In, list_elem_of_lookup. eauto. }
    rewrite Forall_forall in Hq. apply Hq. apply list_elem_of_In. exact Hin.
  - injection H as <- <-. cbn.
    do 4 (split; [reflexivity|]). split; [exact Hp|]. left.
    split; [|split; reflexivity].
    exact (Permutation_Forall Hp (firstExecutable_None _ _ Ef)).
Qed.

Lemma performProduction_effect_witness :
  Forall (fun m => Forall (fun x => (0 <= quantity x)%Z) (catalysts m))
    (methods (job sampleFarmer)) /\
  exists agent' n',
    performProduction (fun _ => 0) initialMarket sampleFarmer 0 = Ok (agent', n') /\
    (role agent' = role sampleFarmer /\ priceBelief agent' = priceBelief sampleFarmer /\
     riskAversion agent' = riskAversion sampleFarmer /\
     penalty (job agent') = penalty (job sampleFarmer) /\
     methods (job agent') ≡ₚ methods (job sampleFarmer) /\
     ((Forall (fun m => executable (inventory sampleFarmer) m = false)
         (methods (job sampleFarmer)) /\
       funds agent' = funds sampleFarmer - penalty (job sampleFarmer) /\
       inventory agent' = inventory sampleFarmer) \/
      (exists i m, methods (job agent') !! i = Some m /\
         executable (inventory sampleFarmer) m = true /\
         (forall k m', (k < i)%nat -> methods (job agent') !! k = Some m' ->
                       executable (inventory sampleFarmer) m' = false) /\
         funds agent' = funds sampleFarmer /\
         forall c,
           (lookupZ (inventory sampleFarmer) c - qtyOf c (inputs m) - qtyOf c (catalysts m)
              + qtyOf c (outputs m) <= lookupZ (inventory agent') c <=
            lookupZ (inventory sampleFarmer) c - qtyOf c (inputs m) + qtyOf c (outputs m))%Z))).
Proof.
  assert (Hq : Forall (fun m => Forall (fun x => (0 <= quantity x)%Z) (catalysts m))
                 (methods (job sampleFarmer))).
  { constructor; [constructor|]. constructor; [constructor; [simpl; lia|constructor]|].
    constructor. }
  split; [exact Hq|]. do 2 eexists. split; [reflexivity|].
  eapply (performProduction_effect (fun _ => 0) initialMarket sampleFarmer _ 0 _);
    [exact Hq|reflexivity].
Defined.

(** ** Bookkeeping of [agentUpdate] *)

Ltac adjusted_result H :=
  match type of H with ?r ≫= _ = Some _ => destruct r as [[? ?]|] eqn:? end;
  cbn in H; [|discriminate]; injection H as <-; cbn.

Lemma askEntryUpdate_accounts (fuel : nat) (market : registry) (agent : traderAgent)
    (x : asks) (agent' : traderAgent) :
  askEntryUpdate fuel market agent x = Some agent' ->
  funds agent' == funds agent + askRevenue x /\
  (forall c, lookupZ (inventory agent') c = (lookupZ (inventory agent) c - askSold c x)%Z) /\
  job agent' = job agent /\ role agent' = role agent /\
  riskAversion agent' = riskAversion agent.
Proof.
  unfold askEntryUpdate, askRevenue, askSold. intros H.
  destruct (0 <? askNumberAccepted x)%Z eqn:Ea; cbn in H; adjusted_result H.
  - split; [reflexivity|]. split; [|auto].
    intros c. unfold addInv, lookupZ. destruct (decide (ask_item (offeredAsk x) = c)) as [<-|Hne].
    + rewrite lookup_insert_eq. simpl. lia.
    + rewrite lookup_insert_ne by exact Hne. lia.
  - split; [lra|]. split; [intros c; lia|auto].
Qed.

Lemma bidEntryUpdate_accounts (fuel : nat) (market : registry) (agent : traderAgent)
    (x : bids) (agent' : traderAgent) :
  bidEntryUpdate fuel market agent x = Some agent' ->
  funds agent' == funds agent - bidCost x /\
  (forall c, lookupZ (inventory agent') c = (lookupZ (inventory agent) c + bidBought c x)%Z) /\
  job agent' = job agent /\ role agent' = role agent /\
  riskAversion agent' = riskAversion agent.
Proof.
  unfold bidEntryUpdate, bidCost, bidBought. intros H.
  destruct (0 <? bidNumberAccepted x)%Z eqn:Ea; cbn in H; adjusted_result H.
  - split; [reflexivity|]. split; [|auto].
    intros c. unfold addInv, lookupZ. destruct (decide (bid_item (offeredBid x) = c)) as [<-|Hne].
    + rewrite lookup_insert_eq. simpl. lia.
    + rewrite lookup_insert_ne by exact Hne. lia.
  - split; [lra|]. split; [intros c; lia|auto].
Qed.

Lemma foldlOpt_ask_accounts (fuel : nat) (market : registry) (asl : list asks) :
  forall agent agent',
  foldlOpt (askEntryUpdate fuel market) agent asl = Some agent' ->
  funds agent' == funds agent + fold_right (fun x acc => askRevenue x + acc) 0 asl /\
  (forall c, lookupZ (inventory agent') c =
             (lookupZ (inventory agent) c - fold_right (fun x acc => askSold c x + acc) 0 asl)%Z) /\
  job agent' = job agent /\ role agent' = role agent /\
  riskAversion agent' = riskAversion agent.
Proof.
  induction asl as [|x asl IH]; intros agent agent' H; simpl in H.
  - injection H as <-. simpl. split; [lra|]. split; [intros; lia|auto].
  - destruct (askEntryUpdate fuel market agent x) as [a1|] eqn:E1; cbn in H; [|discriminate].
    destruct (askEntryUpdate_accounts _ _ _ _ _ E1) as (Hf1 & Hi1 & Hj1 & Hr1 & Hk1).
    destruct (IH _ _ H) as (Hf & Hi & Hj & Hr & Hk). simpl.
    split; [rewrite Hf, Hf1; ring|].
    split; [intros c; rewrite Hi, Hi1; lia|].
    rewrite Hj, Hr, Hk. auto.
Qed.

Lemma foldlOpt_bid_accounts (fuel : nat) (market : registry) (bsl : list bids) :
  forall agent agent',
  foldlOpt (bidEntryUpdate fuel market) agent bsl = Some agent' ->
  funds agent' == funds agent - fold_right (fun x acc => bidCost x + acc) 0 bsl /\
  (forall c, lookupZ (inventory agent') c =
             (lookupZ (inventory agent) c + fold_right (fun x acc => bidBought c x + acc) 0 bsl)%Z) /\
  job agent' = job agent /\ role agent' = role agent /\
  riskAversion agent' = riskAversion agent.
Proof.
  induction bsl as [|x bsl IH]; intros agent agent' H; simpl in H.
  - injection H as <-. simpl. split; [lra|]. split; [intros; lia|auto].
  - destruct (bidEntryUpdate fuel market agent x) as [a1|] eqn:E1; cbn in H; [|discriminate].
    destruct (bidEntryUpdate_accounts _ _ _ _ _ E1) as (Hf1 & Hi1 & Hj1 & Hr1 & Hk1).
    destruct (IH _ _ H) as (Hf & Hi & Hj & Hr & Hk). simpl.
    split; [rewrite Hf, Hf1; ring|].
    split; [intros c; rewrite Hi, Hi1; lia|].
    rewrite Hj, Hr, Hk. auto.
Qed.

(** When [agentUpdate] finishes, the agent's funds have gained exactly the
    proceeds [quantity * numberAccepted * sellFor] of every accepted ask and lost
    the cost [quantity * numberAccepted * buyFor] of every accepted bid; the
    stock of each commodity has dropped by the units sold and grown by the units
    bought; its job, role and risk aversion are untouched. *)
Theorem agentUpdate_accounts (fuel : nat) (market : registry) (agent : traderAgent)
    (askSlice : list asks) (bidSlice : list bids) (agent' : traderAgent) :
  agentUpdate fuel market agent askSlice bidSlice = Some agent' ->
  funds agent' == funds agent + fold_right (fun x acc => askRevenue x + acc) 0 askSlice
                  - fold_right (fun x acc => bidCost x + acc) 0 bidSlice /\
  (forall c, lookupZ (inventory agent') c =
             (lookupZ (inventory agent) c
              - fold_right (fun x acc => askSold c x + acc) 0 askSlice
              + fold_right (fun x acc => bidBought c x + acc) 0 bidSlice)%Z) /\
  job agent' = job agent /\ role agent' = role agent /\
  riskAversion agent' = riskAversion agent.
Proof.
  unfold agentUpdate. intros H.
  destruct (foldlOpt (askEntryUpdate fuel market) agent askSlice) as [a1|] eqn:E1;
    cbn in H; [|discriminate].
  destruct (foldlOpt_ask_accounts _ _ _ _ _ E1) as (Hf1 & Hi1 & Hj1 & Hr1 & Hk1).
  destruct (foldlOpt_bid_accounts _ _ _ _ _ H) as (Hf & Hi & Hj & Hr & Hk).
  split; [rewrite Hf, Hf1; ring|].
  split; [intros c; rewrite Hi, Hi1; lia|].
  rewrite Hj, Hr, Hk. auto.
Qed.

Lemma agentUpdate_accounts_witness :
  exists agent',
  agentUpdate 10 initialMarket sampleFarmer [acceptedWoodAsk] [rejectedWoodBid] = Some agent' /\
  (funds agent' == funds sampleFarmer + fold_right (fun x acc => askRevenue x + acc) 0 [acceptedWoodAsk]
                  - fold_right (fun x acc => bidCost x + acc) 0 [rejectedWoodBid] /\
  (forall c, lookupZ (inventory agent') c =
             (lookupZ (inventory sampleFarmer) c
              - fold_right (fun x acc => askSold c x + acc) 0 [acceptedWoodAsk]
              + fold_right (fun x acc => bidBought c x + acc) 0 [rejectedWoodBid])%Z) /\
  job agent' = job sampleFarmer /\ role agent' = role sampleFarmer /\
  riskAversion agent' = riskAversion sampleFarmer).
Proof.
  eexists. split; [vm_compute; reflexivity|].
  apply (agentUpdate_accounts 10 initialMarket sampleFarmer [acceptedWoodAsk] [rejectedWoodBid]).
  vm_compute. reflexivity.
Defined.

(** ** Termination of the matching loop *)

Lemma length_spliceAfter {A} (l : list A) (i : nat) (p : A) :
  (i < length l)%nat -> length (spliceAfter l i p) = S (length l).
Proof.
  intros Hi. unfold spliceAfter. rewrite length_app, length_take, Nat.min_l by lia. simpl.
  assert (Hd : length (drop (S i) l) = (length l - S i)%nat) by apply length_drop.
  destruct (drop (S i) l) as [|x t]; simpl in *; lia.
Qed.

Lemma Forall_spliceAfter {A} (P : A -> Prop) (l : list A) (i : nat) (p : A) :
  Forall P l -> P p -> Forall P (spliceAfter l i p).
Proof.
  intros Hl Hp. unfold spliceAfter. apply Forall_app. split.
  - apply Forall_take. exact Hl.
  - constructor; [exact Hp|].
    pose proof (Forall_drop P (S i) l Hl) as Hd.
    destruct (drop (S i) l) as [|x t]; [constructor|].
    inversion Hd; subst. constructor; assumption.
Qed.

Lemma Forall_is_Some_insert {K V} `{Countable K} (l : list K) (m : gmap K V) k v :
  Forall (fun p => is_Some (m !! p)) l -> Forall (fun p => is_Some (<[k:=v]> m !! p)) l.
Proof.
  intros Hl. eapply Forall_impl; [exact Hl|]. intros x Hx.
  destruct (decide (k = x)) as [->|Hne].
  - rewrite lookup_insert_eq. eauto.
  - rewrite lookup_insert_ne by exact Hne. exact Hx.
Qed.

Lemma matchStep_sound_ok (st : book) :
  bookSound st -> exists r, matchStep st = Ok r.
Proof.
  intros (Hi & Hj & Ha & Hb).
  destruct (lookup_lt_is_Some_2 _ _ Hi) as [p Hp].
  destruct (lookup_lt_is_Some_2 _ _ Hj) as [q Hq].
  destruct (proj1 (Forall_lookup _ _) Ha _ _ Hp) as [a Hpa].
  destruct (proj1 (Forall_lookup _ _) Hb _ _ Hq) as [b Hqb].
  unfold matchStep, index, derefAsk, derefBid. rewrite Hp, Hq. cbn. rewrite Hpa, Hqb. cbn.
  destruct (Qltb _ _); [eauto|].
  destruct (_ <=? _)%Z; [destruct (_ =? _)%Z|]; cbn; eauto.
Qed.

Lemma matchStep_sound_continue (st st' : book) :
  bookSound st -> matchStep st = Ok (st', true) ->
  bookSound st' /\ (bookMeasure st' < bookMeasure st)%nat.
Proof.
  intros (Hi & Hj & Ha & Hb) H.
  destruct (lookup_lt_is_Some_2 _ _ Hi) as [p Hp].
  destruct (lookup_lt_is_Some_2 _ _ Hj) as [q Hq].
  destruct (proj1 (Forall_lookup _ _) Ha _ _ Hp) as [a Hpa].
  destruct (proj1 (Forall_lookup _ _) Hb _ _ Hq) as [b Hqb].
  assert (Hpin : is_Some (askHeap st !! p)) by eauto.
  assert (Hqin : is_Some (bidHeap st !! q)) by eauto.
  unfold matchStep, index, derefAsk, derefBid in H. rewrite Hp, Hq in H. cbn in H.
  rewrite Hpa, Hqb in H. cbn in H.
  destruct (Qltb _ _); [discriminate|].
  unfold bookSound, bookMeasure.
  destruct (_ <=? _)%Z; [destruct (_ =? _)%Z|]; cbn in H; injection H as <- Hc;
    apply negb_true_iff, orb_false_iff in Hc; destruct Hc as [Hc1 Hc2];
    apply Nat.leb_gt in Hc1, Hc2; cbn in *.
  - repeat split; try lia; apply Forall_is_Some_insert; assumption.
  - rewrite length_spliceAfter in Hc2 |- * by exact Hi.
    repeat split; try lia; apply Forall_is_Some_insert; try assumption.
    apply Forall_spliceAfter; assumption.
  - rewrite length_spliceAfter in Hc1 |- * by exact Hj.
    repeat split; try lia; apply Forall_is_Some_insert; try assumption.
    apply Forall_spliceAfter; assumption.
Qed.

Lemma matchLoop_sound_ok (fuel : nat) :
  forall st, bookSound st -> (bookMeasure st <= fuel)%nat -> exists st', matchLoop fuel st = Ok st'.
Proof.
  induction fuel as [|f IH]; intros st Hs Hm.
  - destruct Hs as (Hi & Hj & _). unfold bookMeasure in Hm. lia.
  - destruct (matchStep_sound_ok st Hs) as [[st' c] E]. simpl. rewrite E. cbn.
    destruct c; [|eauto].
    destruct (matchStep_sound_continue st st' Hs E) as [Hs' Hm'].
    apply IH; [exact Hs'|]. lia.
Qed.

(** The clearing of one commodity never panics and never runs out of its
    [len(asksCom) + len(bidsCom)] passes: when every pointer of the two books
    points to an entry, each pass stays in range, the loop breaks at the
    latest when one of the indexes reaches the end of its (possibly grown)
    book, and the price update follows. *)
Theorem clearCommodity_total (market : registry) (com : cptr) (aheap : gmap nat asks)
    (bheap : gmap nat bids) (asksCom0 bidsCom0 : list nat) :
  Forall (fun p => is_Some (aheap !! p)) asksCom0 ->
  Forall (fun q => is_Some (bheap !! q)) bidsCom0 ->
  exists market' st, clearCommodity market com aheap bheap asksCom0 bidsCom0 = Ok (market', st).
Proof.
  intros Ha Hb. unfold clearCommodity.
  destruct ((0 <? length asksCom0)%nat && (0 <? length bidsCom0)%nat) eqn:Hne.
  - apply andb_true_iff in Hne as [H1 H2]. apply Nat.ltb_lt in H1, H2.
    destruct (matchLoop_sound_ok (length asksCom0 + length bidsCom0)
                (mkBook aheap bheap asksCom0 bidsCom0 0 0 0 0)) as [st E].
    + unfold bookSound; cbn. repeat split; assumption.
    + unfold bookMeasure; cbn. lia.
    + rewrite E. cbn. destruct (_ =? _)%Z; eauto.
  - cbn. eauto.
Qed.

Lemma clearCommodity_total_witness :
  Forall (fun p => is_Some (scenarioAAsks !! p)) [0%nat] /\
  Forall (fun q => is_Some (scenarioABids !! q)) [0%nat] /\
  exists market' st,
    clearCommodity scenarioAMarket "X" scenarioAAsks scenarioABids [0%nat] [0%nat] = Ok (market', st).
Proof.
  assert (Ha : Forall (fun p => is_Some (scenarioAAsks !! p)) [0%nat]).
  { constructor; [vm_compute; eauto|constructor]. }
  assert (Hb : Forall (fun q => is_Some (scenarioABids !! q)) [0%nat]).
  { constructor; [vm_compute; eauto|constructor]. }
  split; [exact Ha|]. split; [exact Hb|].
  exact (clearCommodity_total scenarioAMarket "X" scenarioAAsks scenarioABids [0%nat] [0%nat] Ha Hb).
Defined.

(** ** One pass of the matching loop *)

(** A pass over an ask [a] (at [asksCom[asksIndex]]) and a bid [b] (at
    [bidsCom[bidsIndex]]) whose prices do not cross clears both at the midpoint
    price [(sellFor + buyFor) / 2], which lies between the two offers; both
    entries end with [numberOffered = numberAccepted]; no other entry of either
    heap is written; and both indexes advance by one. *)
Theorem matchStep_trade (st : book) (p q : nat) (a : asks) (b : bids) (st' : book) (c : bool) :
  asksCom st !! asksIndex st = Some p -> bidsCom st !! bidsIndex st = Some q ->
  askHeap st !! p = Some a -> bidHeap st !! q = Some b ->
  sellFor (offeredAsk a) <= buyFor (offeredBid b) ->
  matchStep st = Ok (st', c) ->
  exists a' b',
    askHeap st' !! p = Some a' /\ bidHeap st' !! q = Some b' /\
    sellFor (offeredAsk a') = (sellFor (offeredAsk a) + buyFor (offeredBid b)) / 2 /\
    buyFor (offeredBid b') = sellFor (offeredAsk a') /\
    sellFor (offeredAsk a) <= sellFor (offeredAsk a') <= buyFor (offeredBid b) /\
    askNumberOffered a' = askNumberAccepted a' /\
    bidNumberOffered b' = bidNumberAccepted b' /\
    (forall p', p' <> p -> askHeap st' !! p' = askHeap st !! p') /\
    (forall q', q' <> q -> bidHeap st' !! q' = bidHeap st !! q') /\
    asksIndex st' = S (asksIndex st) /\ bidsIndex st' = S (bidsIndex st).
Proof.
  intros Hp Hq Ha Hb Hle H.
  unfold matchStep, index, derefAsk, derefBid in H. rewrite Hp, Hq in H. cbn in H.
  rewrite Ha, Hb in H. cbn in H.
  assert (Qltb (buyFor (offeredBid b)) (sellFor (offeredAsk a)) = false) as Hn.
  { unfold Qltb. apply negb_false_iff, Qle_bool_iff. exact Hle. }
  rewrite Hn in H.
  assert (Hmid : sellFor (offeredAsk a) <= (sellFor (offeredAsk a) + buyFor (offeredBid b)) / 2
                 <= buyFor (offeredBid b)).
  { split; [apply Qle_shift_div_l|apply Qle_shift_div_r]; lra. }
  destruct (_ <=? _)%Z; [destruct (_ =? _)%Z|]; cbn in H; injection H as <- <-;
    eexists _, _; cbn; rewrite !lookup_insert_eq;
    (split; [reflexivity|]); (split; [reflexivity|]); cbn;
    (repeat split; try reflexivity; try lra);
    intros x Hx; rewrite lookup_insert_ne by congruence; reflexivity.
Qed.

Lemma matchStep_trade_witness :
  exists a b st' c,
    asksCom (mkBook scenarioAAsks scenarioABids [0%nat] [0%nat] 0 0 0 0) !! 0%nat = Some 0%nat /\
    bidsCom (mkBook scenarioAAsks scenarioABids [0%nat] [0%nat] 0 0 0 0) !! 0%nat = Some 0%nat /\
    scenarioAAsks !! 0%nat = Some a /\ scenarioABids !! 0%nat = Some b /\
    sellFor (offeredAsk a) <= buyFor (offeredBid b) /\
    matchStep (mkBook scenarioAAsks scenarioABids [0%nat] [0%nat] 0 0 0 0) = Ok (st', c) /\
    exists a' b',
      askHeap st' !! 0%nat = Some a' /\ bidHeap st' !! 0%nat = Some b' /\
      sellFor (offeredAsk a') = (sellFor (offeredAsk a) + buyFor (offeredBid b)) / 2 /\
      buyFor (offeredBid b') = sellFor (offeredAsk a') /\
      sellFor (offeredAsk a) <= sellFor (offeredAsk a') <= buyFor (offeredBid b) /\
      askNumberOffered a' = askNumberAccepted a' /\
      bidNumberOffered b' = bidNumberAccepted b' /\
      (forall p', p' <> 0%nat -> askHeap st' !! p' = scenarioAAsks !! p') /\
      (forall q', q' <> 0%nat -> bidHeap st' !! q' = scenarioABids !! q') /\
      asksIndex st' = 1%nat /\ bidsIndex st' = 1%nat.
Proof.
  do 4 eexists.
  assert (Hp : asksCom (mkBook scenarioAAsks scenarioABids [0%nat] [0%nat] 0 0 0 0) !! 0%nat
               = Some 0%nat) by reflexivity.
  assert (Hq : bidsCom (mkBook scenarioAAsks scenarioABids [0%nat] [0%nat] 0 0 0 0) !! 0%nat
               = Some 0%nat) by reflexivity.
  assert (Ha : scenarioAAsks !! 0%nat = Some (mkAsks (mkAsk 0 "X" 1 10) 5 0)) by reflexivity.
  assert (Hb : scenarioABids !! 0%nat = Some (mkBids (mkBid 1 "X" 1 12) 3 0)) by reflexivity.
  assert (Hle : sellFor (offeredAsk (mkAsks (mkAsk 0 "X" 1 10) 5 0))
                <= buyFor (offeredBid (mkBids (mkBid 1 "X" 1 12) 3 0))) by (vm_compute; discriminate).
  assert (Hs : matchStep (mkBook scenarioAAsks scenarioABids [0%nat] [0%nat] 0 0 0 0)
               = Ok (mkBook (<[0%nat := mkAsks (mkAsk 0 "X" 1 (22 # 2)) 0 0]> scenarioAAsks)
                            (<[0%nat := mkBids (mkBid 1 "X" 1 (22 # 2)) 3 3]> scenarioABids)
                            [0%nat; 0%nat] [0%nat] 1 1 3 (66 # 2), false)).
  { vm_compute. reflexivity. }
  split; [exact Hp|]. split; [exact Hq|]. split; [exact Ha|]. split; [exact Hb|].
  split; [exact Hle|]. split; [exact Hs|].
  exact (matchStep_trade (mkBook scenarioAAsks scenarioABids [0%nat] [0%nat] 0 0 0 0)
           0%nat 0%nat _ _ _ _ Hp Hq Ha Hb Hle Hs).
Defined.

(** ** Initial price beliefs *)

Lemma randomPriceBelief_entry (avg u v : Q) :
  0 <= u < 1 -> 0 <= v < 1 -> 0 <= avg ->
  0 <= avg - v * avg /\ avg - v * avg <= avg /\ avg <= avg + u * avg /\ avg + u * avg <= 2 * avg.
Proof. intros Hu Hv Ha. repeat split; nra. Qed.

Lemma randomPriceBeliefLoop_spec (rng : nat -> Q) (market : registry) (coms : list cptr) :
  (forall k, 0 <= rng k < 1) ->
  forall prMap n,
  let r := randomPriceBeliefLoop rng market coms prMap n in
  r.2 = (n + 2 * length coms)%nat /\
  (forall c, is_Some (r.1 !! c) <-> is_Some (prMap !! c) \/ c ∈ coms) /\
  ((forall c pr, prMap !! c = Some pr -> 0 <= averagePrice market c ->
      0 <= low pr /\ low pr <= averagePrice market c /\
      averagePrice market c <= high pr /\ high pr <= 2 * averagePrice market c) ->
   forall c pr, r.1 !! c = Some pr -> 0 <= averagePrice market c ->
      0 <= low pr /\ low pr <= averagePrice market c /\
      averagePrice market c <= high pr /\ high pr <= 2 * averagePrice market c).
Proof.
  intros Hrng. induction coms as [|c0 cs IH]; intros prMap n; simpl.
  - split; [lia|]. split; [|auto]. intros c. split; [auto|].
    intros [H|H]; [exact H|inversion H].
  - destruct (IH (<[c0 := mkPriceRange (averagePrice market c0 - rng (S n) * averagePrice market c0)
                                       (averagePrice market c0 + rng n * averagePrice market c0)]> prMap)
                 (S (S n))) as (Hn & Hdom & Hgood).
    split; [rewrite Hn; lia|]. split.
    + intros c. rewrite Hdom, elem_of_cons. destruct (decide (c0 = c)) as [->|Hne].
      * rewrite lookup_insert_eq. split; [auto|]. intros _. left. eauto.
      * rewrite lookup_insert_ne by exact Hne. split; [intros [H|H]; auto|].
        intros [H|[H|H]]; auto. congruence.
    + intros Hprev. apply Hgood. intros c pr Hc Hpos.
      destruct (decide (c0 = c)) as [->|Hne].
      * rewrite lookup_insert_eq in Hc. injection Hc as <-. simpl.
        apply randomPriceBelief_entry; auto.
      * rewrite lookup_insert_ne in Hc by exact Hne. eauto.
Qed.

(** [randomPriceBelief] draws two random numbers per commodity and gives a
    belief to exactly the commodities of the list. With draws in [[0, 1)],
    every commodity whose average price is non-negative gets
    [0 <= low <= averagePrice <= high <= 2 * averagePrice]. These bounds are
    monotone in the rounded operations, so they also hold in float64. *)
Theorem randomPriceBelief_bounds (rng : nat -> Q) (market : registry) (coms : list cptr)
    (n : nat) :
  (forall k, 0 <= rng k < 1) ->
  (randomPriceBelief rng market coms n).2 = (n + 2 * length coms)%nat /\
  (forall c, is_Some ((randomPriceBelief rng market coms n).1 !! c) <-> c ∈ coms) /\
  (forall c pr, (randomPriceBelief rng market coms n).1 !! c = Some pr ->
      0 <= averagePrice market c ->
      0 <= low pr /\ low pr <= averagePrice market c /\
      averagePrice market c <= high pr /\ high pr <= 2 * averagePrice market c).
Proof.
  intros Hrng. unfold randomPriceBelief.
  destruct (randomPriceBeliefLoop_spec rng market coms Hrng ∅ n) as (Hn & Hdom & Hgood).
  split; [exact Hn|]. split.
  - intros c. rewrite Hdom, lookup_empty. split; [intros [[? H]|H]; [discriminate|exact H]|auto].
  - apply Hgood. intros c pr H. rewrite lookup_empty in H. discriminate.
Qed.

Lemma randomPriceBelief_bounds_witness :
  (forall k, 0 <= (fun _ : nat => 1 # 2) k < 1) /\
  ((randomPriceBelief (fun _ => 1 # 2) initialMarket [food; wood] 0).2 = (0 + 2 * 2)%nat /\
   (forall c, is_Some ((randomPriceBelief (fun _ => 1 # 2) initialMarket [food; wood] 0).1 !! c)
              <-> c ∈ [food; wood]) /\
   (forall c pr, (randomPriceBelief (fun _ => 1 # 2) initialMarket [food; wood] 0).1 !! c = Some pr ->
      0 <= averagePrice initialMarket c ->
      0 <= low pr /\ low pr <= averagePrice initialMarket c /\
      averagePrice initialMarket c <= high pr /\ high pr <= 2 * averagePrice initialMarket c)).
Proof.
  assert (Hr : forall k, 0 <= (fun _ : nat => 1 # 2) k < 1).
  { intros k. simpl. split; vm_compute; [discriminate|reflexivity]. }
  split; [exact Hr|].
  exact (randomPriceBelief_bounds (fun _ => 1 # 2) initialMarket [food; wood] 0 Hr).
Defined.

(** ** Choosing the role of a replacement agent *)

Lemma mostExpensive_fold (market : registry) (coms : list cptr) :
  forall m0,
  let r := fold_left (fun maxCom com =>
               if Qltb (averagePrice market maxCom) (averagePrice market com)
               then com else maxCom) coms m0 in
  (r = m0 \/ (r ∈ coms /\ averagePrice market m0 < averagePrice market r)) /\
  averagePrice market m0 <= averagePrice market r /\
  Forall (fun c => averagePrice market c <= averagePrice market r) coms.
Proof.
  induction coms as [|c cs IH]; intros m0; simpl.
  - split; [auto|]. split; [apply Qle_refl|constructor].
  - destruct (Qltb (averagePrice market m0) (averagePrice market c)) eqn:Hlt.
    + unfold Qltb in Hlt. apply negb_true_iff, Qle_bool_false in Hlt.
      destruct (IH c) as (Hin & Hge & Hall). split; [|split].
      * right. rewrite elem_of_cons. destruct Hin as [->|[Hin Hl]]; split; auto; lra.
      * lra.
      * constructor; assumption.
    + unfold Qltb in Hlt. apply negb_false_iff, Qle_bool_iff in Hlt.
      destruct (IH m0) as (Hin & Hge & Hall). split; [|split].
      * rewrite elem_of_cons. tauto.
      * exact Hge.
      * constructor; [lra|assumption].
Qed.

(** The commodity picked for a replacement agent is Food or one of the listed
    commodities, no listed commodity (nor Food) has a higher average price, and
    Food is kept unless the pick is strictly more expensive than Food. *)
Theorem mostExpensive_max (market : registry) (coms : list cptr) :
  mostExpensive market coms ∈ food :: coms /\
  Forall (fun c => averagePrice market c <= averagePrice market (mostExpensive market coms))
         (food :: coms) /\
  (mostExpensive market coms <> food ->
   averagePrice market food < averagePrice market (mostExpensive market coms)).
Proof.
  unfold mostExpensive. destruct (mostExpensive_fold market coms food) as (Hin & Hge & Hall).
  split; [|split].
  - rewrite elem_of_cons. destruct Hin as [H|[H _]]; auto.
  - constructor; assumption.
  - intros Hne. destruct Hin as [H|[_ H]]; [contradiction|exact H].
Qed.

(** ** Order of the production methods after [sort.Sort] *)

Section InsertionSortSorted.
Context {A : Type} (less : A -> A -> result bool) (key : A -> Q) (P : A -> Prop).
Hypothesis Hless : forall x y, P x -> P y ->
  exists b, less x y = Ok b /\ (b = true <-> key x < key y).

Lemma sinkDown_sorted (j : nat) :
  forall pre x post, length pre = j -> Forall P (pre ++ x :: post) ->
  StronglySorted (fun a b => key a <= key b) pre ->
  exists pre2, sinkDown less j (pre ++ x :: post) = Ok (pre2 ++ post) /\
    pre2 ≡ₚ pre ++ [x] /\ StronglySorted (fun a b => key a <= key b) pre2.
Proof.
  induction j as [|j IH]; intros pre x post Hlen HP Hs.
  - destruct pre; [|discriminate]. exists [x]. simpl.
    split; [reflexivity|]. split; [reflexivity|]. repeat constructor.
  - assert (Hne : pre <> []) by (intros ->; discriminate).
    destruct (exists_last Hne) as [pre' [y ->]]. clear Hne.
    rewrite length_app in Hlen. simpl in Hlen.
    assert (Hl' : length pre' = j) by lia.
    rewrite <- app_assoc in HP |- *. simpl in HP |- *.
    assert (HPx : P x /\ P y).
    { rewrite Forall_app, !Forall_cons in HP. tauto. }
    unfold index.
    rewrite !lookup_app_r by lia.
    replace (S j - length pre')%nat with 1%nat by lia.
    replace (j - length pre')%nat with 0%nat by lia. cbn.
    destruct (Hless x y (proj1 HPx) (proj2 HPx)) as [b [Hb Hiff]]. rewrite Hb. cbn.
    destruct b.
    + assert (Hxy : key x < key y) by (apply Hiff; reflexivity).
      assert (Hins : <[j := x]> (<[S j := y]> (pre' ++ y :: x :: post)) = pre' ++ x :: y :: post).
      { subst j. replace (S (length pre')) with (length pre' + 1)%nat by lia.
        rewrite insert_app_r. simpl.
        pose proof (insert_app_r pre' (y :: y :: post) 0 x) as E.
        rewrite Nat.add_0_r in E. rewrite E. reflexivity. }
      rewrite Hins.
      destruct (IH pre' x (y :: post) Hl') as (pre2 & E2 & Hp2 & Hs2).
      { rewrite Forall_app, !Forall_cons in HP |- *. tauto. }
      { exact (StronglySorted_app_1_l _ _ _ Hs). }
      exists (pre2 ++ [y]). split; [|split].
      * rewrite <- app_assoc. exact E2.
      * rewrite Hp2, <- !app_assoc. apply Permutation_app_head. simpl. constructor.
      * apply StronglySorted_app_2; [|exact Hs2|repeat constructor].
        intros a b Ha Hb'. apply list_elem_of_singleton in Hb'. subst b.
        rewrite Hp2, elem_of_app, list_elem_of_singleton in Ha. destruct Ha as [Ha| ->].
        -- apply (StronglySorted_app_1_elem_of _ _ _ _ _ Hs Ha). left.
        -- apply Qlt_le_weak. exact Hxy.
    + assert (Hyx : key y <= key x).
      { apply Qnot_lt_le. intros Hlt. apply Hiff in Hlt. discriminate. }
      exists ((pre' ++ [y]) ++ [x]). split; [|split].
      * rewrite <- !app_assoc. reflexivity.
      * reflexivity.
      * apply StronglySorted_app_2; [|exact Hs|repeat constructor].
        intros a b Ha Hb'. apply list_elem_of_singleton in Hb'. subst b.
        rewrite elem_of_app, list_elem_of_singleton in Ha. destruct Ha as [Ha| ->].
        -- apply Qle_trans with (key y); [|exact Hyx].
           apply (StronglySorted_app_1_elem_of _ _ _ _ _ Hs Ha). left.
        -- exact Hyx.
Qed.

Lemma foldl_sinkDown_sorted (m : nat) :
  forall k pre post, length pre = k -> (k + m = length (pre ++ post))%nat ->
  Forall P (pre ++ post) -> StronglySorted (fun a b => key a <= key b) pre ->
  exists l', foldlM (fun l i => sinkDown less i l) (pre ++ post) (seq k m) = Ok l' /\
    l' ≡ₚ pre ++ post /\ StronglySorted (fun a b => key a <= key b) l'.
Proof.
  induction m as [|m IH]; intros k pre post Hk Hm HP Hs.
  - rewrite length_app in Hm. destruct post; [|simpl in Hm; lia].
    rewrite app_nil_r in *. exists pre. simpl. auto.
  - destruct post as [|x post']; [rewrite length_app in Hm; simpl in Hm; lia|].
    destruct (sinkDown_sorted k pre x post' Hk HP Hs) as (pre2 & E & Hp & Hs2).
    simpl. rewrite E. cbn.
    assert (Hp' : pre2 ++ post' ≡ₚ pre ++ x :: post').
    { rewrite Hp, <- app_assoc. reflexivity. }
    destruct (IH (S k) pre2 post') as (l' & E' & Hpl & Hsl).
    + rewrite Hp, length_app. simpl. lia.
    + rewrite Hp'. rewrite <- Hm. lia.
    + exact (Permutation_Forall (Permutation_sym Hp') HP).
    + exact Hs2.
    + exists l'. split; [exact E'|]. split; [rewrite Hpl; exact Hp'|exact Hsl].
Qed.

(** With a [Less] that never panics on the elements and compares by a key,
    Go's insertion sort succeeds and returns a permutation in ascending key
    order. *)
Lemma insertionSort_sorted (l : list A) :
  Forall P l ->
  exists l', insertionSort less l = Ok l' /\ l' ≡ₚ l /\
    StronglySorted (fun a b => key a <= key b) l'.
Proof.
  intros HP. unfold insertionSort. destruct l as [|x t].
  - exists []. simpl. split; [reflexivity|]. split; [reflexivity|constructor].
  - simpl length. replace (S (length t) - 1)%nat with (length t) by lia.
    apply (foldl_sinkDown_sorted (length t) 1 [x] t); auto.
    repeat constructor.
Qed.
End InsertionSortSorted.

Lemma StronglySorted_lookup {A} (R : A -> A -> Prop) (l : list A) :
  StronglySorted R l -> forall i k a b, (i < k)%nat -> l !! i = Some a -> l !! k = Some b -> R a b.
Proof.
  induction 1 as [|x l Hs IH Hf]; intros i k a b Hik Ha Hb; [discriminate|].
  destruct k as [|k]; [lia|]. simpl in Hb. destruct i as [|i].
  - simpl in Ha. injection Ha as <-. rewrite Forall_forall in Hf. apply Hf.
    apply list_elem_of_lookup. eauto.
  - simpl in Ha. apply (IH i k); [lia|exact Ha|exact Hb].
Qed.

Lemma StronglySorted_mono {A} (R1 R2 : A -> A -> Prop) (l : list A) :
  StronglySorted R1 l -> (forall x y, R1 x y -> R2 x y) -> StronglySorted R2 l.
Proof.
  intros Hs Himp. induction Hs as [|x l Hs IH Hf]; constructor; [exact IH|].
  eapply Forall_impl; [exact Hf|]. intros y. apply Himp.
Qed.

Lemma byMarketValueLess_key (market : registry) (x y : productionMethod) :
  (exists v, getMarketValue market x = Ok v) -> (exists v, getMarketValue market y = Ok v) ->
  exists b, byMarketValueLess market x y = Ok b /\
    (b = true <-> (fun m => match getMarketValue market m with Ok v => v | Panic _ => 0 end) x
                  < (fun m => match getMarketValue market m with Ok v => v | Panic _ => 0 end) y).
Proof.
  intros [vx Hx] [vy Hy]. unfold byMarketValueLess. rewrite Hx, Hy. cbn.
  exists (Qltb vx vy). split; [reflexivity|].
  unfold Qltb. rewrite negb_true_iff. split.
  - intros H. apply Qle_bool_false in H. exact H.
  - intros H. apply Qle_bool_false. exact H.
Qed.

(** When every production method has a market value, [performProduction]
    leaves the agent's methods in ascending order of [getMarketValue], so the
    method it runs (the first executable one in that order) has the lowest
    market value of all the executable methods. *)
Theorem performProduction_lowest_value (rng : nat -> Q) (market : registry)
    (agent agent' : traderAgent) (n n' : nat) :
  Forall (fun m => exists v, getMarketValue market m = Ok v) (methods (job agent)) ->
  performProduction rng market agent n = Ok (agent', n') ->
  StronglySorted (fun x y => forall vx vy, getMarketValue market x = Ok vx ->
                    getMarketValue market y = Ok vy -> vx <= vy) (methods (job agent')) /\
  (forall i m, methods (job agent') !! i = Some m -> executable (inventory agent) m = true ->
     (forall k m', (k < i)%nat -> methods (job agent') !! k = Some m' ->
                   executable (inventory agent) m' = false) ->
     forall m' v v', m' ∈ methods (job agent) -> executable (inventory agent) m' = true ->
       getMarketValue market m = Ok v -> getMarketValue market m' = Ok v' -> v <= v').
Proof.
  intros HP H.
  destruct (insertionSort_sorted (byMarketValueLess market)
              (fun m => match getMarketValue market m with Ok v => v | Panic _ => 0 end)
              (fun m => exists v, getMarketValue market m = Ok v)
              (byMarketValueLess_key market) _ HP) as (ms & Es & Hp & Hs).
  assert (Hj : methods (job agent') = ms).
  { unfold performProduction in H. rewrite Es in H. cbn in H.
    destruct (firstExecutable _ _) as [i|]; cbn in H.
    - unfold index in H. destruct (ms !! i); cbn in H; [|discriminate].
      destruct (runMethod _ _ _ _) as [[? ?]|]; cbn in H; [|discriminate].
      injection H as <- <-. reflexivity.
    - injection H as <- <-. reflexivity. }
  rewrite Hj.
  assert (Hs' : StronglySorted (fun x y => forall vx vy, getMarketValue market x = Ok vx ->
                  getMarketValue market y = Ok vy -> vx <= vy) ms).
  { apply (StronglySorted_mono _ _ _ Hs). intros x y Hxy vx vy Hx Hy.
    rewrite Hx, Hy in Hxy. exact Hxy. }
  split; [exact Hs'|].
  intros i m Hm Hx Hbefore m' v v' Hin Hx' Hv Hv'.
  rewrite <- Hp in Hin. apply list_elem_of_lookup in Hin as [k Hk].
  destruct (Nat.lt_trichotomy k i) as [Hlt|[->|Hgt]].
  - rewrite (Hbefore k m' Hlt Hk) in Hx'. discriminate.
  - rewrite Hm in Hk. injection Hk as <-. rewrite Hv in Hv'. injection Hv' as <-.
    apply Qle_refl.
  - exact (StronglySorted_lookup _ _ Hs' i k m m' Hgt Hm Hk v v' Hv Hv').
Qed.

Lemma performProduction_lowest_value_witness :
  Forall (fun m => exists v, getMarketValue initialMarket m = Ok v) (methods (job sampleFarmer)) /\
  exists agent' n',
    performProduction (fun _ => 0) initialMarket sampleFarmer 0 = Ok (agent', n') /\
    (StronglySorted (fun x y => forall vx vy, getMarketValue initialMarket x = Ok vx ->
                       getMarketValue initialMarket y = Ok vy -> vx <= vy) (methods (job agent')) /\
     (forall i m, methods (job agent') !! i = Some m -> executable (inventory sampleFarmer) m = true ->
        (forall k m', (k < i)%nat -> methods (job agent') !! k = Some m' ->
                      executable (inventory sampleFarmer) m' = false) ->
        forall m' v v', m' ∈ methods (job sampleFarmer) ->
          executable (inventory sampleFarmer) m' = true ->
          getMarketValue initialMarket m = Ok v -> getMarketValue initialMarket m' = Ok v' ->
          v <= v')).
Proof.
  assert (HP : Forall (fun m => exists v, getMarketValue initialMarket m = Ok v)
                 (methods (job sampleFarmer))).
  { constructor; [eexists; reflexivity|]. constructor; [eexists; reflexivity|]. constructor. }
  split; [exact HP|]. do 2 eexists. split; [reflexivity|].
  eapply (performProduction_lowest_value (fun _ => 0) initialMarket sampleFarmer _ 0 _);
    [exact HP|reflexivity].
Defined.

(** [sortedPVKeys(m)] never panics: it returns the methods of the value map in
    descending order of their production values. *)
Theorem sortedPVKeys_descending (pvm : list (productionMethod * Q)) :
  exists ks, sortedPVKeys pvm = Ok ks /\
    exists sorted, ks = map fst sorted /\ sorted ≡ₚ pvm /\
      StronglySorted (fun x y => snd y <= snd x) sorted.
Proof.
  destruct (insertionSort_sorted (fun x y : productionMethod * Q => Ok (Qltb (snd y) (snd x)))
              (fun x => - snd x) (fun _ => True)) with (l := pvm)
    as (sorted & Es & Hp & Hs).
  - intros x y _ _. exists (Qltb (snd y) (snd x)). split; [reflexivity|].
    unfold Qltb. rewrite negb_true_iff. split.
    + intros H. apply Qle_bool_false in H. lra.
    + intros H. apply Qle_bool_false. lra.
  - apply Forall_forall. auto.
  - exists (map fst sorted). unfold sortedPVKeys. rewrite Es. split; [reflexivity|].
    exists sorted. split; [reflexivity|]. split; [exact Hp|].
    apply (StronglySorted_mono _ _ _ Hs). intros x y H. lra.
Qed.

(** ** Method valuation *)

Lemma fold_left_add_value {A} (f : A -> Q) (l : list A) :
  forall a, fold_left (fun v o => v + f o) l a == a + fold_right (fun o acc => f o + acc) 0 l.
Proof.
  induction l as [|x l IH]; intros a; simpl; [ring|]. rewrite IH. ring.
Qed.

Lemma fold_left_sub_value {A} (f : A -> Q) (l : list A) :
  forall a, fold_left (fun v o => v - f o) l a == a - fold_right (fun o acc => f o + acc) 0 l.
Proof.
  induction l as [|x l IH]; intros a; simpl; [ring|]. rewrite IH. ring.
Qed.

Lemma catalystCost_value (price : cptr -> Q) (cons : list Q) (cs : list commoditySet) :
  forall idx acc v, catalystCost price cons idx cs acc = Ok v ->
  v == acc - fold_right (fun '(c, p) acc => inject_Z (quantity c) * p * price (item c) + acc) 0
                (combine cs (drop idx cons)).
Proof.
  induction cs as [|c cs IH]; intros idx acc v H; simpl in H.
  - injection H as <-. simpl. ring.
  - unfold index in H. destruct (cons !! idx) as [p|] eqn:Hp; cbn in H; [|discriminate].
    rewrite (drop_S _ _ _ Hp). simpl. rewrite (IH _ _ _ H). ring.
Qed.

Lemma catalystCost_panic (price : cptr -> Q) (cons : list Q) (cs : list commoditySet) :
  forall idx acc, (idx <= length cons)%nat -> (length cons < idx + length cs)%nat ->
  catalystCost price cons idx cs acc = Panic "index out of range".
Proof.
  induction cs as [|c cs IH]; intros idx acc Hidx Hlen; simpl in *; [lia|].
  unfold index. destruct (cons !! idx) as [p|] eqn:Hp; cbn; [|reflexivity].
  apply lookup_lt_Some in Hp. apply IH; lia.
Qed.

(** The valuation shared by [getMarketValue] and [getAverageProductionValue]
    succeeds exactly when [consumption] has an entry for every catalyst, and is
    then [sum of quantity * price over the outputs - the same over the inputs -
    sum of quantity * consumption[i] * price over the catalysts]; with fewer
    [consumption] entries than catalysts it panics with an index out of range. *)
Theorem methodValue_spec (price : cptr -> Q) (m : productionMethod) :
  ((length (catalysts m) <= length (consumption m))%nat ->
   exists v, methodValue price m = Ok v /\
     v == fold_right (fun o acc => inject_Z (quantity o) * price (item o) + acc) 0 (outputs m)
          - fold_right (fun i acc => inject_Z (quantity i) * price (item i) + acc) 0 (inputs m)
          - fold_right (fun '(c, p) acc => inject_Z (quantity c) * p * price (item c) + acc) 0
              (combine (catalysts m) (consumption m))) /\
  ((length (consumption m) < length (catalysts m))%nat ->
   methodValue price m = Panic "index out of range").
Proof.
  unfold methodValue. split.
  - intros Hlen.
    destruct (catalystCost_ok price (consumption m) (catalysts m) 0
                (fold_left (fun v i => v - inject_Z (quantity i) * price (item i)) (inputs m)
                   (fold_left (fun v o => v + inject_Z (quantity o) * price (item o))
                      (outputs m) 0)) ltac:(lia)) as [v Hv].
    exists v. split; [exact Hv|].
    rewrite (catalystCost_value _ _ _ _ _ _ Hv). simpl drop.
    rewrite (fold_left_sub_value (fun i => inject_Z (quantity i) * price (item i))).
    rewrite (fold_left_add_value (fun o => inject_Z (quantity o) * price (item o))).
    rewrite drop_0, Qplus_0_l. reflexivity.
  - intros Hlen. apply catalystCost_panic; lia.
Qed.
